(** * The ECS registry of [src/ecs.js]: membership maintenance and dispatch

    A shallow embedding of class [ECS] (constructor, [getEntityById],
    [addEntity], [removeEntity], [addSystem], [removeSystem], [update],
    [updateEntities], [updateSystems]) and of the collaborators it calls
    ([Entity], [System], [fastSplice]), followed by the properties of the
    specification.

    Objects are references into a store; the registry and the objects
    hold references to each other, so every operation is a function on the
    whole store.  JavaScript numbers are modelled by [Z] (integral values
    only), the clock reading of each [performance.now()] call is an
    argument of the operation that makes the call.  A [system.update]
    callback is an arbitrary function on the store; the two dispatch
    loops re-read their lists at every step, as the source does, and run
    on fuel because such a callback may keep them going for ever. *)

From stdpp Require Import base list gmap strings.
From Stdlib Require Import ZArith Lia.

Local Open Scope Z_scope.

(** ** JavaScript values and the operators the constructor uses *)

(** [VRef] is a reference to an entity or a system of the store, [VObj]
    a plain object given by its own properties. *)
#[warnings="-register-all"]
Inductive value : Type :=
  | VUndefined
  | VNull
  | VBool (b : bool)
  | VNum (n : Z)
  | VStr (s : string)
  | VRef (r : nat)
  | VObj (props : list (string * value)).

Inductive error : Type := TypeError.

Inductive completion (A : Type) : Type :=
  | Normal (a : A)
  | Throw (e : error).
Arguments Normal {A} a.
Arguments Throw {A} e.

(** ToBoolean. *)
Definition truthy (v : value) : bool :=
  match v with
  | VUndefined | VNull => false
  | VBool b => b
  | VNum n => negb (n =? 0)
  | VStr s => match s with EmptyString => false | _ => true end
  | VRef _ | VObj _ => true
  end.

(** [a || b] *)
Definition js_or (a b : value) : value := if truthy a then a else b.

Fixpoint own_prop (k : string) (props : list (string * value)) : value :=
  match props with
  | [] => VUndefined
  | (k', v) :: rest => if String.eqb k k' then v else own_prop k rest
  end.

(** [v.k] for a property no prototype defines: reading it from
    [undefined] or [null] throws, a primitive has no such property, an
    object answers with its own property. *)
Definition get_prop (v : value) (k : string) : completion value :=
  match v with
  | VUndefined | VNull => Throw TypeError
  | VBool _ | VNum _ | VStr _ | VRef _ => Normal VUndefined
  | VObj props => Normal (own_prop k props)
  end.

(** [a % b > 0] on integral numbers: [%] takes the sign of the dividend,
    [a % 0] is NaN and [NaN > 0] is false. *)
Definition rem_positive (a b : Z) : bool :=
  if b =? 0 then false else 0 <? Z.rem a b.

(** ** Objects and the store *)

Definition EntRef := nat.
Definition SysRef := nat.
Bind Scope nat_scope with EntRef SysRef.

(** An entity: its id, its components by name, the systems tracking it
    ([entity.systems]) and whether [entity.ecs] refers to the registry. *)
Record Entity : Type := mkEntity {
  e_id : Z;
  e_components : gmap string value;
  e_systems : list SysRef;
  e_ecs : bool
}.

(** A system: the component names it requires, the entities it tracks
    ([system.entities]), [system.frequency] and [system.enable]. *)
Record System : Type := mkSystem {
  s_required : list string;
  s_entities : list EntRef;
  s_frequency : Z;
  s_enable : bool
}.

(** The fields the constructor of [ECS] sets. *)
Record ECS : Type := mkECS {
  systemsFirst : value;
  entities : list EntRef;
  systems : list SysRef;
  updateCounter : Z;
  lastUpdate : Z
}.

Record World : Type := mkWorld {
  ecs : ECS;
  ents : gmap EntRef Entity;
  syss : gmap SysRef System
}.

(** A reference the store does not list denotes an object nobody has
    touched yet. *)
Definition fresh_Entity : Entity :=
  {| e_id := 0; e_components := ∅; e_systems := []; e_ecs := false |}.
Definition fresh_System : System :=
  {| s_required := []; s_entities := []; s_frequency := 1; s_enable := true |}.

Definition ent (w : World) (e : EntRef) : Entity := default fresh_Entity (ents w !! e).
Definition sys (w : World) (s : SysRef) : System := default fresh_System (syss w !! s).

Definition set_ecs (r : ECS) (w : World) : World :=
  {| ecs := r; ents := ents w; syss := syss w |}.
Definition set_ent (e : EntRef) (o : Entity) (w : World) : World :=
  {| ecs := ecs w; ents := <[e := o]> (ents w); syss := syss w |}.
Definition set_sys (s : SysRef) (o : System) (w : World) : World :=
  {| ecs := ecs w; ents := ents w; syss := <[s := o]> (syss w) |}.

(** Calls of hooks, in the order they are made. *)
Inductive Event : Type :=
  | EvInitialize (s : SysRef)
  | EvSystemDispose (s : SysRef)
  | EvEntityDispose (e : EntRef)
  | EvUpdate (s : SysRef) (e : EntRef) (elapsed : Z).

#[global] Instance Event_eq_dec : EqDecision Event.
Proof. solve_decision. Defined.

(** [array.indexOf(x)] on references; [None] is [-1]. *)
Fixpoint indexOf (x : nat) (l : list nat) : option nat :=
  match l with
  | [] => None
  | y :: l' => if Nat.eqb y x then Some 0%nat else S <$> indexOf x l'
  end.

(** ** Collaborators that are not part of [ecs.js] *)

(** Modelled from the spec: [fastSplice(array, index, 1)] of [./utils],
    the unordered-removal utility: it overwrites the element at [index]
    with the last element and shrinks the sequence by one. *)
Definition fastSplice {A} (array : list A) (index : nat) : list A :=
  match last array with
  | Some x => if (index <? length array)%nat
              then take (length array - 1)%nat (<[index := x]> array)
              else array
  | None => array
  end.

(** Modelled from the spec: [system.test(entity)] of [./system]: true
    iff every required component name is present on the entity. *)
Definition System_test (s : SysRef) (e : EntRef) (w : World) : bool :=
  forallb (fun k => bool_decide (is_Some (e_components (ent w e) !! k)))
          (s_required (sys w s)).

(** Modelled from the spec: [system.addEntity(entity)] of [./system],
    the attachment primitive: append the system to the entity's
    membership cache, append the entity to the system's tracked list. *)
Definition System_addEntity (s : SysRef) (e : EntRef) (w : World) : World :=
  let o := ent w e in
  let w1 := set_ent e {| e_id := e_id o; e_components := e_components o;
                         e_systems := e_systems o ++ [s]; e_ecs := e_ecs o |} w in
  let p := sys w1 s in
  set_sys s {| s_required := s_required p; s_entities := s_entities p ++ [e];
               s_frequency := s_frequency p; s_enable := s_enable p |} w1.

(** Modelled from the spec: [system.removeEntity(entity)] of [./system]:
    unordered removal of the entity from the tracked list. *)
Definition System_removeEntity (s : SysRef) (e : EntRef) (w : World) : World :=
  let p := sys w s in
  match indexOf e (s_entities p) with
  | Some index =>
      set_sys s {| s_required := s_required p;
                   s_entities := fastSplice (s_entities p) index;
                   s_frequency := s_frequency p; s_enable := s_enable p |} w
  | None => w
  end.

(** Modelled from the spec: [entity.dispose()] of [./entity]: detach the
    entity from every system in its membership cache, then clear the
    cache. *)
Definition Entity_dispose (e : EntRef) (w : World) : World :=
  let w1 := foldl (fun acc s => System_removeEntity s e acc) w (e_systems (ent w e)) in
  let o := ent w1 e in
  set_ent e {| e_id := e_id o; e_components := e_components o;
               e_systems := []; e_ecs := e_ecs o |} w1.

(** Modelled from the spec: [system.initialize()] and [system.dispose()]
    of [./system] are no-ops by default; the model records the call. *)
Definition System_initialize (s : SysRef) (w : World) : World * list Event :=
  (w, [EvInitialize s]).
Definition System_dispose (s : SysRef) (w : World) : World * list Event :=
  (w, [EvSystemDispose s]).

(** ** The registry: class [ECS] *)

(** [constructor(options)]; [now] is what [performance.now()] returns. *)
Definition constructor (options : value) (now : Z) : completion ECS :=
  match get_prop options "systemsFirst" with
  | Throw err => Throw err
  | Normal v =>
      Normal {| systemsFirst := js_or v (VBool false);
                entities := [];
                systems := [];
                updateCounter := 0;
                lastUpdate := now |}
  end.

(** A store in which the registry has just been constructed. *)
Definition new_World (r : ECS) : World := {| ecs := r; ents := ∅; syss := ∅ |}.

(** [getEntityById(id)]; [None] is [null]. *)
Definition getEntityById (id : Z) (w : World) : option EntRef :=
  List.find (fun entity => e_id (ent w entity) =? id) (entities (ecs w)).

Definition push_entity (entity : EntRef) (r : ECS) : ECS :=
  {| systemsFirst := systemsFirst r; entities := entities r ++ [entity];
     systems := systems r; updateCounter := updateCounter r;
     lastUpdate := lastUpdate r |}.
Definition push_system (system : SysRef) (r : ECS) : ECS :=
  {| systemsFirst := systemsFirst r; entities := entities r;
     systems := systems r ++ [system]; updateCounter := updateCounter r;
     lastUpdate := lastUpdate r |}.
Definition with_entities (l : list EntRef) (r : ECS) : ECS :=
  {| systemsFirst := systemsFirst r; entities := l;
     systems := systems r; updateCounter := updateCounter r;
     lastUpdate := lastUpdate r |}.
Definition with_systems (l : list SysRef) (r : ECS) : ECS :=
  {| systemsFirst := systemsFirst r; entities := entities r;
     systems := l; updateCounter := updateCounter r;
     lastUpdate := lastUpdate r |}.
Definition set_owner (o : Entity) : Entity :=
  {| e_id := e_id o; e_components := e_components o;
     e_systems := e_systems o; e_ecs := true |}.

(** [if (system.test(entity)) { system.addEntity(entity); }] *)
Definition attach_matching (system : SysRef) (entity : EntRef) (w : World) : World :=
  if System_test system entity w
  then System_addEntity system entity w
  else w.

(** [addEntity(entity)].  Neither [test] nor [system.addEntity] writes
    [this.systems], so the loop runs over the list as it is on entry. *)
Definition addEntity (entity : EntRef) (w : World) : World :=
  let w1 := set_ecs (push_entity entity (ecs w)) w in
  let w2 := set_ent entity (set_owner (ent w1 entity)) w1 in
  foldl (fun acc system => attach_matching system entity acc)
        w2 (systems (ecs w2)).

(** [removeEntity(entity)]: the new store, the hooks called, the value
    returned. *)
Definition removeEntity (entity : EntRef) (w : World) : World * list Event * value :=
  match indexOf entity (entities (ecs w)) with
  | Some index =>
      let w1 := Entity_dispose entity w in
      (set_ecs (with_entities (fastSplice (entities (ecs w1)) index) (ecs w1)) w1,
       [EvEntityDispose entity],
       VRef entity)
  | None => (w, [], VRef entity)
  end.

(** [addSystem(system)]. *)
Definition addSystem (system : SysRef) (w : World) : World * list Event :=
  let w1 := set_ecs (push_system system (ecs w)) w in
  let '(w2, evs) := System_initialize system w1 in
  (foldl (fun acc entity => attach_matching system entity acc)
         w2 (entities (ecs w2)),
   evs).

(** [removeSystem(system)]; the method has no [return] statement. *)
Definition removeSystem (system : SysRef) (w : World) : World * list Event * value :=
  match indexOf system (systems (ecs w)) with
  | Some index =>
      let w1 := set_ecs (with_systems (fastSplice (systems (ecs w)) index) (ecs w)) w in
      let '(w2, evs) := System_dispose system w1 in
      (w2, evs, VUndefined)
  | None => (w, [], VUndefined)
  end.

(** What a dispatch loop has done when it stops: it ran to its end, or
    the model gave up because the fuel ran out. *)
Inductive outcome : Type :=
  | Done (w : World) (tr : list Event)
  | OutOfFuel (w : World) (tr : list Event).

Definition tick (now : Z) (r : ECS) : ECS :=
  {| systemsFirst := systemsFirst r; entities := entities r;
     systems := systems r; updateCounter := updateCounter r + 1;
     lastUpdate := now |}.

(** [this.updateCounter % system.frequency > 0 || !system.enable] *)
Definition skipped (w : World) (system : SysRef) : bool :=
  rem_positive (updateCounter (ecs w)) (s_frequency (sys w system))
  || negb (s_enable (sys w system)).

Section Dispatch.

(** [system.update(entity, elapsed)]: user code, free to change the
    store in any way. *)
Variable System_update : SysRef -> EntRef -> Z -> World -> World.

(** The loop over [entity.systems], from index [j]. *)
Fixpoint updateEntities_inner (fuel : nat) (entity : EntRef) (elapsed : Z)
         (j : nat) (w : World) (tr : list Event) : outcome :=
  match fuel with
  | O => OutOfFuel w tr
  | S fuel' =>
      match e_systems (ent w entity) !! j with
      | None => Done w tr
      | Some system =>
          if skipped w system
          then updateEntities_inner fuel' entity elapsed (S j) w tr
          else updateEntities_inner fuel' entity elapsed (S j)
                 (System_update system entity elapsed w)
                 (tr ++ [EvUpdate system entity elapsed])
      end
  end.

(** The loop over [this.entities], from index [i]. *)
Fixpoint updateEntities_outer (fuel : nat) (elapsed : Z)
         (i : nat) (w : World) (tr : list Event) : outcome :=
  match fuel with
  | O => OutOfFuel w tr
  | S fuel' =>
      match entities (ecs w) !! i with
      | None => Done w tr
      | Some entity =>
          match updateEntities_inner fuel' entity elapsed 0 w tr with
          | Done w' tr' => updateEntities_outer fuel' elapsed (S i) w' tr'
          | OutOfFuel w' tr' => OutOfFuel w' tr'
          end
      end
  end.

Definition updateEntities (fuel : nat) (now elapsed : Z) (w : World) : outcome :=
  match updateEntities_outer fuel elapsed 0 w [] with
  | Done w' tr => Done (set_ecs (tick now (ecs w')) w') tr
  | OutOfFuel w' tr => OutOfFuel w' tr
  end.

(** The loop over [system.entities], from index [j]. *)
Fixpoint updateSystems_inner (fuel : nat) (system : SysRef) (elapsed : Z)
         (j : nat) (w : World) (tr : list Event) : outcome :=
  match fuel with
  | O => OutOfFuel w tr
  | S fuel' =>
      match s_entities (sys w system) !! j with
      | None => Done w tr
      | Some entity =>
          if skipped w system
          then updateSystems_inner fuel' system elapsed (S j) w tr
          else updateSystems_inner fuel' system elapsed (S j)
                 (System_update system entity elapsed w)
                 (tr ++ [EvUpdate system entity elapsed])
      end
  end.

(** The loop over [this.systems], from index [i]. *)
Fixpoint updateSystems_outer (fuel : nat) (elapsed : Z)
         (i : nat) (w : World) (tr : list Event) : outcome :=
  match fuel with
  | O => OutOfFuel w tr
  | S fuel' =>
      match systems (ecs w) !! i with
      | None => Done w tr
      | Some system =>
          match updateSystems_inner fuel' system elapsed 0 w tr with
          | Done w' tr' => updateSystems_outer fuel' elapsed (S i) w' tr'
          | OutOfFuel w' tr' => OutOfFuel w' tr'
          end
      end
  end.

Definition updateSystems (fuel : nat) (now elapsed : Z) (w : World) : outcome :=
  match updateSystems_outer fuel elapsed 0 w [] with
  | Done w' tr => Done (set_ecs (tick now (ecs w')) w') tr
  | OutOfFuel w' tr => OutOfFuel w' tr
  end.

(** [update()]; [now] is what [performance.now()] returns. *)
Definition update (fuel : nat) (now : Z) (w : World) : outcome :=
  let elapsed := now - lastUpdate (ecs w) in
  if truthy (systemsFirst (ecs w))
  then updateSystems fuel now elapsed w
  else updateEntities fuel now elapsed w.

End Dispatch.

(** ** A tick without structural mutation *)

(** [w'] has the lists, the tick counter and the gating fields of [w]. *)
Record same_structure (w w' : World) : Prop := {
  ss_entities : entities (ecs w') = entities (ecs w);
  ss_systems : systems (ecs w') = systems (ecs w);
  ss_counter : updateCounter (ecs w') = updateCounter (ecs w);
  ss_cache : ∀ e, e_systems (ent w' e) = e_systems (ent w e);
  ss_tracked : ∀ s, s_entities (sys w' s) = s_entities (sys w s);
  ss_frequency : ∀ s, s_frequency (sys w' s) = s_frequency (sys w s);
  ss_enable : ∀ s, s_enable (sys w' s) = s_enable (sys w s)
}.

(** No [update] callback changes a list, the counter or a gating field. *)
Definition quiet (upd : SysRef -> EntRef -> Z -> World -> World) : Prop :=
  ∀ s e elapsed w, same_structure w (upd s e elapsed w).

(** The calls an entities-first traversal of a fixed population makes. *)
Definition dispatch_entities (w : World) (elapsed : Z) : list Event :=
  e ← entities (ecs w);
  s ← e_systems (ent w e);
  if skipped w s then [] else [EvUpdate s e elapsed].

(** The calls a systems-first traversal of a fixed population makes. *)
Definition dispatch_systems (w : World) (elapsed : Z) : list Event :=
  s ← systems (ecs w);
  e ← s_entities (sys w s);
  if skipped w s then [] else [EvUpdate s e elapsed].

Definition dispatch (w : World) (elapsed : Z) : list Event :=
  if truthy (systemsFirst (ecs w))
  then dispatch_systems w elapsed
  else dispatch_entities w elapsed.

(** Fuel that lets a tick over a fixed population run to its end. *)
Definition enough_fuel (w : World) : nat :=
  (length (entities (ecs w)) + length (systems (ecs w))
   + max_list ((λ e, length (e_systems (ent w e))) <$> entities (ecs w))
   + max_list ((λ s, length (s_entities (sys w s))) <$> systems (ecs w))
   + 2)%nat.

(** Number of calls [s.update(e, _)] in a trace. *)
Definition is_update_of (s : SysRef) (e : EntRef) (ev : Event) : bool :=
  match ev with
  | EvUpdate s' e' _ => Nat.eqb s s' && Nat.eqb e e'
  | _ => false
  end.
Definition invocations (s : SysRef) (e : EntRef) (tr : list Event) : nat :=
  length (List.filter (is_update_of s e) tr).

(** Number of occurrences of a reference in a list. *)
Definition occurrences (x : nat) (l : list nat) : nat :=
  length (List.filter (Nat.eqb x) l).

(** The set of (entity, system) pairs a trace visits. *)
Definition visits (tr : list Event) (e : EntRef) (s : SysRef) : Prop :=
  ∃ elapsed, EvUpdate s e elapsed ∈ tr.

(** The membership cache of the registered entities mirrors the tracked
    lists of the registered systems. *)
Definition mirrored (w : World) : Prop :=
  ∀ e s, (e ∈ entities (ecs w) ∧ s ∈ e_systems (ent w e))
         ↔ (s ∈ systems (ecs w) ∧ e ∈ s_entities (sys w s)).

(** A cache lists exactly the systems that track the entity, and only
    registered entities and systems are attached to each other. *)
Definition coherent (w : World) : Prop :=
  ∀ e s, (s ∈ e_systems (ent w e) ↔ e ∈ s_entities (sys w s))
         ∧ (s ∈ e_systems (ent w e) → e ∈ entities (ecs w) ∧ s ∈ systems (ecs w)).

(** No list holds a reference twice. *)
Record duplicate_free (w : World) : Prop := {
  df_entities : NoDup (entities (ecs w));
  df_systems : NoDup (systems (ecs w));
  df_cache : ∀ e, NoDup (e_systems (ent w e));
  df_tracked : ∀ s, NoDup (s_entities (sys w s))
}.

(** Executable forms of [mirrored] and [duplicate_free]. *)
Definition mirrored_b (w : World) : bool :=
  forallb (λ e, forallb (λ s, bool_decide (s ∈ systems (ecs w))
                              && bool_decide (e ∈ s_entities (sys w s)))
                        (e_systems (ent w e)))
          (entities (ecs w))
  && forallb (λ s, forallb (λ e, bool_decide (e ∈ entities (ecs w))
                                 && bool_decide (s ∈ e_systems (ent w e)))
                           (s_entities (sys w s)))
             (systems (ecs w)).

Definition duplicate_free_b (w : World) : bool :=
  bool_decide (NoDup (entities (ecs w)))
  && bool_decide (NoDup (systems (ecs w)))
  && bool_decide (map_Forall (λ _ o, NoDup (e_systems o)) (ents w))
  && bool_decide (map_Forall (λ _ o, NoDup (s_entities o)) (syss w)).

(** The same population under the other traversal mode. *)
Definition with_mode (v : value) (w : World) : World :=
  set_ecs {| systemsFirst := v; entities := entities (ecs w);
             systems := systems (ecs w); updateCounter := updateCounter (ecs w);
             lastUpdate := lastUpdate (ecs w) |} w.

(** ** Runs of the registry *)

Definition world_of (o : outcome) : World :=
  match o with Done w _ | OutOfFuel w _ => w end.
Definition trace_of (o : outcome) : list Event :=
  match o with Done _ tr | OutOfFuel _ tr => tr end.

(** The traversal [update] selects, without the bookkeeping after it. *)
Definition traversal (upd : SysRef -> EntRef -> Z -> World -> World)
           (fuel : nat) (elapsed : Z) (w : World) : outcome :=
  if truthy (systemsFirst (ecs w))
  then updateSystems_outer upd fuel elapsed 0 w []
  else updateEntities_outer upd fuel elapsed 0 w [].

(** Registrations and removals, as a client issues them. *)
Inductive op : Type :=
  | AddEntity (e : EntRef)
  | RemoveEntity (e : EntRef)
  | AddSystem (s : SysRef)
  | RemoveSystem (s : SysRef).

Definition run_op (w : World) (o : op) : World :=
  match o with
  | AddEntity e => addEntity e w
  | RemoveEntity e => (removeEntity e w).1.1
  | AddSystem s => (addSystem s w).1
  | RemoveSystem s => (removeSystem s w).1.1
  end.

Definition run_ops (w : World) (l : list op) : World := foldl run_op w l.

(** A client that registers nothing twice and removes no system. *)
Definition allowed (w : World) (o : op) : Prop :=
  match o with
  | AddEntity e => e ∉ entities (ecs w)
  | AddSystem s => s ∉ systems (ecs w)
  | RemoveEntity _ => True
  | RemoveSystem _ => False
  end.

Fixpoint allowed_ops (w : World) (l : list op) : Prop :=
  match l with
  | [] => True
  | o :: l' => allowed w o ∧ allowed_ops (run_op w o) l'
  end.

(** [new ECS(options)] followed by the operations [l]. *)
Definition session (options : value) (now : Z) (l : list op) : completion World :=
  match constructor options now with
  | Normal r => Normal (run_ops (new_World r) l)
  | Throw err => Throw err
  end.

(** [n] ticks with the clock readings [now + 1], [now + 2], ...: the store
    after them and the calls of each tick. *)
Fixpoint ticks (upd : SysRef -> EntRef -> Z -> World -> World)
         (fuel : nat) (now : Z) (n : nat) (w : World) : World * list (list Event) :=
  match n with
  | O => (w, [])
  | S n' =>
      let o := update upd fuel (now + 1) w in
      let '(w', trs) := ticks upd fuel (now + 1) n' (world_of o) in
      (w', trace_of o :: trs)
  end.

(** ** Concrete populations *)

(** A callback that leaves the store alone. *)
Definition idle : SysRef -> EntRef -> Z -> World -> World := fun _ _ _ w => w.

(** A callback by which system [1] switches system [0] off. *)
Definition switch_off : SysRef -> EntRef -> Z -> World -> World :=
  fun s _ _ w =>
    if Nat.eqb s 1%nat
    then set_sys 0 {| s_required := s_required (sys w 0);
                      s_entities := s_entities (sys w 0);
                      s_frequency := s_frequency (sys w 0);
                      s_enable := false |} w
    else w.

Definition entities_first : ECS :=
  {| systemsFirst := VBool false; entities := []; systems := [];
     updateCounter := 0; lastUpdate := 0 |}.
Definition systems_first : ECS :=
  {| systemsFirst := VBool true; entities := []; systems := [];
     updateCounter := 0; lastUpdate := 0 |}.

(** [addSystem(s0); addEntity(e0)] *)
Definition one_pair : list op := [AddSystem 0; AddEntity 0].
(** ... [removeSystem(s0)] *)
Definition removed_system : list op := [AddSystem 0; AddEntity 0; RemoveSystem 0].
(** [addEntity(e0)] twice *)
Definition added_twice : list op := [AddEntity 0; AddEntity 0].
(** two systems, two entities, every system tracking every entity *)
Definition two_by_two : list op := [AddSystem 0; AddSystem 1; AddEntity 0; AddEntity 1].

(** The scenario of the specification: an entity [e1] with a component
    [pos], a system [s1] that requires [pos] and runs every second tick. *)
Definition scenario_store (r : ECS) : World :=
  set_sys 1 {| s_required := ["pos"%string]; s_entities := [];
               s_frequency := 2; s_enable := true |}
    (set_ent 1 {| e_id := 1; e_components := {["pos"%string := VNum 0]};
                  e_systems := []; e_ecs := false |}
       (new_World r)).
Definition scenario : World := run_ops (scenario_store entities_first) [AddSystem 1; AddEntity 1].

(** The scenario with [s1] switched off. *)
Definition scenario_off : World :=
  set_sys 1 {| s_required := s_required (sys scenario 1);
               s_entities := s_entities (sys scenario 1);
               s_frequency := s_frequency (sys scenario 1);
               s_enable := false |} scenario.

(** [addSystem(s0); addEntity(e0)] on a registry constructed when the
    clock read 100. *)
Definition constructed_at_100 : World :=
  run_ops (new_World {| systemsFirst := VBool false; entities := []; systems := [];
                        updateCounter := 0; lastUpdate := 100 |}) one_pair.

(** The scenario with the system registered late: the entity is added,
    one tick passes, and only then [addSystem(s1)] is called. *)
Definition late_registration : World :=
  run_ops (world_of (update idle 10 1 (run_ops (scenario_store entities_first) [AddEntity 1])))
          [AddSystem 1].

(** ** Notions for the properties beyond dispatch *)

(** No two registered entities share an id. *)
Definition unique_ids (w : World) : Prop :=
  ∀ x y, x ∈ entities (ecs w) → y ∈ entities (ecs w) →
         e_id (ent w x) = e_id (ent w y) → x = y.

(** [indexOf] followed by [fastSplice], as [removeEntity] and
    [removeSystem] do it: the list without the first occurrence. *)
Definition without (x : nat) (l : list nat) : list nat :=
  match indexOf x l with
  | Some index => fastSplice l index
  | None => l
  end.

(** The scenario with a system of frequency 0. *)
Definition scenario_zero : World :=
  set_sys 1 {| s_required := s_required (sys scenario 1);
               s_entities := s_entities (sys scenario 1);
               s_frequency := 0;
               s_enable := true |}
    (set_ecs {| systemsFirst := VBool false; entities := entities (ecs scenario);
                systems := systems (ecs scenario); updateCounter := 7;
                lastUpdate := 0 |} scenario).

Definition with_cache (l : list SysRef) (o : Entity) : Entity :=
  {| e_id := e_id o; e_components := e_components o;
     e_systems := l; e_ecs := e_ecs o |}.
Definition with_tracked (l : list EntRef) (o : System) : System :=
  {| s_required := s_required o; s_entities := l;
     s_frequency := s_frequency o; s_enable := s_enable o |}.

(** [w'] differs from [w] in membership caches and tracked lists at
    most: ids, components, owners, predicates, frequencies and enable
    flags are those of [w]. *)
Definition same_data (w w' : World) : Prop :=
  (∀ x, ent w' x = with_cache (e_systems (ent w' x)) (ent w x))
  ∧ (∀ s, sys w' s = with_tracked (s_entities (sys w' s)) (sys w s)).

(** Two entities with ids 10 and 20 and a system that tracks both. *)
Definition two_ids : World :=
  run_ops
    (set_ent 1 {| e_id := 20; e_components := ∅; e_systems := []; e_ecs := false |}
       (set_ent 0 {| e_id := 10; e_components := ∅; e_systems := []; e_ecs := false |}
          (new_World entities_first)))
    [AddSystem 0; AddEntity 0; AddEntity 1].

(** Two systems tracking two entities, under the systems-first
    traversal. *)
Definition two_systems : World :=
  with_mode (VBool true) (run_ops (new_World entities_first) two_by_two).

(** An executable form of [coherent]. *)
Definition coherent_b (w : World) : bool :=
  bool_decide (map_Forall
                 (λ e o, Forall (λ s, e ∈ s_entities (sys w s)
                                      ∧ e ∈ entities (ecs w)
                                      ∧ s ∈ systems (ecs w))
                                (e_systems o))
                 (ents w))
  && bool_decide (map_Forall
                    (λ s p, Forall (λ e, s ∈ e_systems (ent w e)) (s_entities p))
                    (syss w)).

(** Every system tracks exactly the registered entities that pass its
    test. *)
Definition exact_membership (w : World) : Prop :=
  ∀ e s, e ∈ s_entities (sys w s)
         ↔ e ∈ entities (ecs w) ∧ s ∈ systems (ecs w) ∧ System_test s e w = true.

(** Three entities of which two carry [pos] and one also [vel], a system
    for [pos] and a system for [pos] and [vel]; the second entity is
    removed again. *)
Definition mixed_store : World :=
  set_sys 1 {| s_required := ["pos"%string; "vel"%string]; s_entities := [];
               s_frequency := 1; s_enable := true |}
    (set_sys 0 {| s_required := ["pos"%string]; s_entities := [];
                  s_frequency := 1; s_enable := true |}
       (set_ent 2 {| e_id := 2; e_components := ∅; e_systems := []; e_ecs := false |}
          (set_ent 1 {| e_id := 1;
                        e_components := {["pos"%string := VNum 0; "vel"%string := VNum 1]};
                        e_systems := []; e_ecs := false |}
             (set_ent 0 {| e_id := 0; e_components := {["pos"%string := VNum 0]};
                           e_systems := []; e_ecs := false |}
                (new_World entities_first))))).
Definition mixed_ops : list op :=
  [AddEntity 0; AddSystem 0; AddEntity 1; AddEntity 2; AddSystem 1; RemoveEntity 0].

(** No list of the registry is longer than [B]. *)
Definition bounded (B : nat) (w : World) : Prop :=
  (length (entities (ecs w)) ≤ B)%nat
  ∧ (length (systems (ecs w)) ≤ B)%nat
  ∧ (∀ e, (length (e_systems (ent w e)) ≤ B)%nat)
  ∧ (∀ s, (length (s_entities (sys w s)) ≤ B)%nat).

(** A callback that removes the entity it is called on:
    [update(entity) { entity.ecs.removeEntity(entity); }] *)
Definition remove_self : SysRef -> EntRef -> Z -> World -> World :=
  fun _ entity _ w => (removeEntity entity w).1.1.

(** ** Basic facts *)

Lemma same_structure_refl w : same_structure w w.
Proof. by split. Qed.

Lemma same_structure_trans w1 w2 w3 :
  same_structure w1 w2 → same_structure w2 w3 → same_structure w1 w3.
Proof.
  intros [] []; split; intros; etrans; eauto.
Qed.

Lemma skipped_same w w' s : same_structure w w' → skipped w' s = skipped w s.
Proof.
  intros H. unfold skipped.
  by rewrite (ss_counter _ _ H), (ss_frequency _ _ H), (ss_enable _ _ H).
Qed.

Section DispatchFacts.

Variable System_update : SysRef -> EntRef -> Z -> World -> World.
Hypothesis Hquiet : quiet System_update.

Lemma updateEntities_inner_quiet w0 entity elapsed fuel :
  ∀ j w tr,
    same_structure w0 w →
    (length (e_systems (ent w0 entity)) - j < fuel)%nat →
    ∃ w',
      updateEntities_inner System_update fuel entity elapsed j w tr
      = Done w' (tr ++ (drop j (e_systems (ent w0 entity)) ≫=
                        λ s, if skipped w0 s then [] else [EvUpdate s entity elapsed]))
      ∧ same_structure w0 w'.
Proof.
  induction fuel as [|fuel IH]; intros j w tr Hs Hf; [lia|].
  simpl. rewrite (ss_cache _ _ Hs).
  destruct (e_systems (ent w0 entity) !! j) as [system|] eqn:Hj.
  - pose proof (lookup_lt_Some _ _ _ Hj) as Hlt.
    rewrite (drop_S _ _ _ Hj), bind_cons, (skipped_same _ _ _ Hs).
    destruct (skipped w0 system).
    + apply IH; [done|lia].
    + destruct (IH (S j) (System_update system entity elapsed w)
                   (tr ++ [EvUpdate system entity elapsed])) as (w' & -> & Hw').
      * eapply same_structure_trans; [exact Hs|apply Hquiet].
      * lia.
      * exists w'. by rewrite <- app_assoc.
  - apply lookup_ge_None in Hj.
    rewrite drop_ge by done. exists w. by rewrite app_nil_r.
Qed.

Lemma updateSystems_inner_quiet w0 system elapsed fuel :
  ∀ j w tr,
    same_structure w0 w →
    (length (s_entities (sys w0 system)) - j < fuel)%nat →
    ∃ w',
      updateSystems_inner System_update fuel system elapsed j w tr
      = Done w' (tr ++ (drop j (s_entities (sys w0 system)) ≫=
                        λ e, if skipped w0 system then [] else [EvUpdate system e elapsed]))
      ∧ same_structure w0 w'.
Proof.
  induction fuel as [|fuel IH]; intros j w tr Hs Hf; [lia|].
  simpl. rewrite (ss_tracked _ _ Hs).
  destruct (s_entities (sys w0 system) !! j) as [entity|] eqn:Hj.
  - pose proof (lookup_lt_Some _ _ _ Hj) as Hlt.
    rewrite (drop_S _ _ _ Hj), bind_cons, (skipped_same _ _ _ Hs).
    destruct (skipped w0 system).
    + apply IH; [done|lia].
    + destruct (IH (S j) (System_update system entity elapsed w)
                   (tr ++ [EvUpdate system entity elapsed])) as (w' & -> & Hw').
      * eapply same_structure_trans; [exact Hs|apply Hquiet].
      * lia.
      * exists w'. by rewrite <- app_assoc.
  - apply lookup_ge_None in Hj.
    rewrite drop_ge by done. exists w. by rewrite app_nil_r.
Qed.

Lemma updateEntities_outer_quiet w0 elapsed m fuel :
  (∀ e, e ∈ entities (ecs w0) → (length (e_systems (ent w0 e)) < m)%nat) →
  ∀ i w tr,
    same_structure w0 w →
    (length (entities (ecs w0)) - i + m < fuel)%nat →
    ∃ w',
      updateEntities_outer System_update fuel elapsed i w tr
      = Done w' (tr ++ (drop i (entities (ecs w0)) ≫= λ e,
                        e_systems (ent w0 e) ≫=
                        λ s, if skipped w0 s then [] else [EvUpdate s e elapsed]))
      ∧ same_structure w0 w'.
Proof.
  intros Hm.
  induction fuel as [|fuel IH]; intros i w tr Hs Hf; [lia|].
  simpl. rewrite (ss_entities _ _ Hs).
  destruct (entities (ecs w0) !! i) as [entity|] eqn:Hi.
  - pose proof (lookup_lt_Some _ _ _ Hi) as Hlt.
    assert (entity ∈ entities (ecs w0)) as Hin
      by (apply list_elem_of_lookup; eauto).
    destruct (updateEntities_inner_quiet w0 entity elapsed fuel 0 w tr)
      as (w1 & -> & Hw1); [done|specialize (Hm _ Hin); lia|].
    destruct (IH (S i) w1
                (tr ++ (drop 0 (e_systems (ent w0 entity)) ≫=
                        λ s, if skipped w0 s then [] else [EvUpdate s entity elapsed])))
      as (w' & -> & Hw'); [done|lia|].
    exists w'. split; [|done].
    by rewrite (drop_S _ _ _ Hi), bind_cons, drop_0, <- app_assoc.
  - apply lookup_ge_None in Hi.
    rewrite drop_ge by done. exists w. by rewrite app_nil_r.
Qed.

Lemma updateSystems_outer_quiet w0 elapsed m fuel :
  (∀ s, s ∈ systems (ecs w0) → (length (s_entities (sys w0 s)) < m)%nat) →
  ∀ i w tr,
    same_structure w0 w →
    (length (systems (ecs w0)) - i + m < fuel)%nat →
    ∃ w',
      updateSystems_outer System_update fuel elapsed i w tr
      = Done w' (tr ++ (drop i (systems (ecs w0)) ≫= λ s,
                        s_entities (sys w0 s) ≫=
                        λ e, if skipped w0 s then [] else [EvUpdate s e elapsed]))
      ∧ same_structure w0 w'.
Proof.
  intros Hm.
  induction fuel as [|fuel IH]; intros i w tr Hs Hf; [lia|].
  simpl. rewrite (ss_systems _ _ Hs).
  destruct (systems (ecs w0) !! i) as [system|] eqn:Hi.
  - pose proof (lookup_lt_Some _ _ _ Hi) as Hlt.
    assert (system ∈ systems (ecs w0)) as Hin
      by (apply list_elem_of_lookup; eauto).
    destruct (updateSystems_inner_quiet w0 system elapsed fuel 0 w tr)
      as (w1 & -> & Hw1); [done|specialize (Hm _ Hin); lia|].
    destruct (IH (S i) w1
                (tr ++ (drop 0 (s_entities (sys w0 system)) ≫=
                        λ e, if skipped w0 system then [] else [EvUpdate system e elapsed])))
      as (w' & -> & Hw'); [done|lia|].
    exists w'. split; [|done].
    by rewrite (drop_S _ _ _ Hi), bind_cons, drop_0, <- app_assoc.
  - apply lookup_ge_None in Hi.
    rewrite drop_ge by done. exists w. by rewrite app_nil_r.
Qed.

Lemma length_lt_max {A} (f : A → nat) (l : list A) x :
  x ∈ l → (f x < S (max_list (f <$> l)))%nat.
Proof.
  intros Hx. apply Nat.lt_succ_r, max_list_elem_of_le.
  apply list_elem_of_fmap. eauto.
Qed.

(** With quiet callbacks and enough fuel a tick runs to its end, makes
    the calls of [dispatch] for the store it started from, and leaves
    a store of the same structure with the counter one higher. *)
Lemma update_quiet fuel now w :
  (enough_fuel w ≤ fuel)%nat →
  ∃ wl,
    update System_update fuel now w
    = Done (set_ecs (tick now (ecs wl)) wl) (dispatch w (now - lastUpdate (ecs w)))
    ∧ same_structure w wl.
Proof.
  unfold enough_fuel, update, dispatch, updateSystems, updateEntities. intros Hf.
  destruct (truthy (systemsFirst (ecs w))).
  - destruct (updateSystems_outer_quiet w (now - lastUpdate (ecs w))
                (S (max_list ((λ s, length (s_entities (sys w s))) <$> systems (ecs w))))
                fuel) with (i := 0%nat) (w := w) (tr := @nil Event)
      as (wl & -> & Hwl).
    + intros s Hs. by apply (length_lt_max (λ s, length (s_entities (sys w s)))).
    + apply same_structure_refl.
    + lia.
    + exists wl. by rewrite drop_0.
  - destruct (updateEntities_outer_quiet w (now - lastUpdate (ecs w))
                (S (max_list ((λ e, length (e_systems (ent w e))) <$> entities (ecs w))))
                fuel) with (i := 0%nat) (w := w) (tr := @nil Event)
      as (wl & -> & Hwl).
    + intros e He. by apply (length_lt_max (λ e, length (e_systems (ent w e)))).
    + apply same_structure_refl.
    + lia.
    + exists wl. by rewrite drop_0.
Qed.

End DispatchFacts.

(** ** Counting calls *)

Lemma invocations_app s e a b :
  invocations s e (a ++ b) = (invocations s e a + invocations s e b)%nat.
Proof. unfold invocations. by rewrite List.filter_app, length_app. Qed.

Lemma occurrences_cons x y l :
  occurrences x (y :: l) = ((if Nat.eqb x y then 1 else 0) + occurrences x l)%nat.
Proof. unfold occurrences. simpl. by destruct (Nat.eqb x y). Qed.

Lemma occurrences_notin x l : x ∉ l → occurrences x l = 0%nat.
Proof.
  induction l as [|y l IH]; intros Hx; [done|].
  rewrite occurrences_cons, IH by (intros ?; apply Hx; by right).
  destruct (Nat.eqb_spec x y) as [->|]; [|done].
  exfalso. apply Hx. by left.
Qed.

Lemma occurrences_NoDup x l : NoDup l → x ∈ l → occurrences x l = 1%nat.
Proof.
  induction 1 as [|y l Hy Hl IH]; intros Hx; [by apply elem_of_nil in Hx|].
  rewrite occurrences_cons.
  destruct (Nat.eqb_spec x y) as [->|Hne].
  - by rewrite occurrences_notin.
  - apply elem_of_cons in Hx as [|Hx]; [done|]. by rewrite IH.
Qed.

Lemma invocations_one w s e s' e' elapsed :
  invocations s e (if skipped w s' then [] else [EvUpdate s' e' elapsed])
  = if skipped w s' then 0%nat
    else if Nat.eqb s s' && Nat.eqb e e' then 1%nat else 0%nat.
Proof.
  destruct (skipped w s'); [done|].
  unfold invocations. simpl. by destruct (Nat.eqb s s' && Nat.eqb e e').
Qed.

Lemma invocations_cache w s e e' elapsed l :
  invocations s e (l ≫= λ s', if skipped w s' then [] else [EvUpdate s' e' elapsed])
  = if Nat.eqb e e'
    then (if skipped w s then 0 else occurrences s l)%nat
    else 0%nat.
Proof.
  induction l as [|a l IH].
  - by destruct (Nat.eqb e e'), (skipped w s).
  - rewrite bind_cons, invocations_app, IH, invocations_one, occurrences_cons.
    destruct (Nat.eqb_spec s a) as [<-|]; simpl;
      destruct (Nat.eqb e e'), (skipped w s); simpl;
      try destruct (skipped w a); simpl; lia.
Qed.

Lemma invocations_tracked w s e s' elapsed l :
  invocations s e (l ≫= λ e', if skipped w s' then [] else [EvUpdate s' e' elapsed])
  = if Nat.eqb s s'
    then (if skipped w s then 0 else occurrences e l)%nat
    else 0%nat.
Proof.
  induction l as [|a l IH].
  - by destruct (Nat.eqb s s'), (skipped w s).
  - rewrite bind_cons, invocations_app, IH, invocations_one, occurrences_cons.
    destruct (Nat.eqb_spec s s') as [<-|]; simpl;
      destruct (Nat.eqb e a), (skipped w s); simpl;
      try destruct (skipped w s'); simpl; lia.
Qed.

(** Entities-first: one call per occurrence of [e] in the entity list
    and of [s] in the cache of [e]. *)
Lemma invocations_dispatch_entities w s e elapsed :
  invocations s e (dispatch_entities w elapsed)
  = if skipped w s then 0%nat
    else (occurrences e (entities (ecs w)) * occurrences s (e_systems (ent w e)))%nat.
Proof.
  unfold dispatch_entities.
  induction (entities (ecs w)) as [|a l IH].
  - by destruct (skipped w s).
  - rewrite bind_cons, invocations_app, IH, invocations_cache, occurrences_cons.
    destruct (Nat.eqb_spec e a) as [<-|]; destruct (skipped w s); lia.
Qed.

(** Systems-first: one call per occurrence of [s] in the system list and
    of [e] in the tracked list of [s]. *)
Lemma invocations_dispatch_systems w s e elapsed :
  invocations s e (dispatch_systems w elapsed)
  = if skipped w s then 0%nat
    else (occurrences s (systems (ecs w)) * occurrences e (s_entities (sys w s)))%nat.
Proof.
  unfold dispatch_systems.
  induction (systems (ecs w)) as [|a l IH].
  - by destruct (skipped w s).
  - rewrite bind_cons, invocations_app, IH, invocations_tracked, occurrences_cons.
    destruct (Nat.eqb_spec s a) as [<-|]; destruct (skipped w s); lia.
Qed.

(** On a counter that counts ticks the gate is [counter mod n = 0]. *)
Lemma rem_positive_mod c n :
  0 ≤ c → 0 < n → rem_positive c n = bool_decide (c mod n ≠ 0).
Proof.
  intros Hc Hn. unfold rem_positive.
  destruct (Z.eqb_spec n 0); [lia|].
  rewrite Z.rem_mod_nonneg by lia.
  pose proof (Z.mod_pos_bound c n Hn).
  case_bool_decide; [apply Z.ltb_lt|apply Z.ltb_ge]; lia.
Qed.

Lemma invocations_dispatch_wf w s e elapsed :
  duplicate_free w → mirrored w →
  s ∈ systems (ecs w) → e ∈ s_entities (sys w s) →
  invocations s e (dispatch w elapsed) = if skipped w s then 0%nat else 1%nat.
Proof.
  intros [] Hm Hs He. unfold dispatch.
  destruct (truthy (systemsFirst (ecs w))).
  - rewrite invocations_dispatch_systems, !occurrences_NoDup by done. done.
  - destruct (proj2 (Hm e s)) as [He' Hs']; [done|].
    rewrite invocations_dispatch_entities, !occurrences_NoDup by done. done.
Qed.

(** ** Checking the invariants of a concrete store *)

(** Settle a decidable fact about a concrete store by evaluation. *)
Ltac decided := apply (bool_decide_unpack _); vm_compute; exact I.

Lemma mirrored_b_sound w : mirrored_b w = true → mirrored w.
Proof.
  unfold mirrored_b, mirrored. rewrite andb_true_iff, !forallb_forall.
  intros [H1 H2] e s. split; intros [Ha Hb].
  - apply list_elem_of_In in Ha. specialize (H1 _ Ha).
    rewrite forallb_forall in H1.
    apply list_elem_of_In in Hb. specialize (H1 _ Hb).
    apply andb_true_iff in H1 as [?%bool_decide_eq_true ?%bool_decide_eq_true].
    done.
  - apply list_elem_of_In in Ha. specialize (H2 _ Ha).
    rewrite forallb_forall in H2.
    apply list_elem_of_In in Hb. specialize (H2 _ Hb).
    apply andb_true_iff in H2 as [?%bool_decide_eq_true ?%bool_decide_eq_true].
    done.
Qed.

Lemma duplicate_free_b_sound w : duplicate_free_b w = true → duplicate_free w.
Proof.
  unfold duplicate_free_b. rewrite !andb_true_iff, !bool_decide_eq_true.
  intros [[[H1 H2] H3] H4]. split; [done|done| |].
  - intros e. unfold ent. destruct (ents w !! e) as [o|] eqn:He; simpl.
    + by apply (H3 e o).
    + constructor.
  - intros s. unfold sys. destruct (syss w !! s) as [o|] eqn:Hs; simpl.
    + by apply (H4 s o).
    + constructor.
Qed.

Lemma quiet_idle : quiet idle.
Proof. intros s e elapsed w. apply same_structure_refl. Qed.

(** ** The pairs a traversal visits *)

Lemma elem_of_dispatch_entities w elapsed s e el :
  EvUpdate s e el ∈ dispatch_entities w elapsed
  ↔ e ∈ entities (ecs w) ∧ s ∈ e_systems (ent w e)
    ∧ skipped w s = false ∧ el = elapsed.
Proof.
  unfold dispatch_entities. rewrite list_elem_of_bind. split.
  - intros (e' & Hin & He'). apply list_elem_of_bind in Hin as (s' & Hin & Hs').
    destruct (skipped w s') eqn:Hsk; [by apply elem_of_nil in Hin|].
    apply list_elem_of_singleton in Hin. by simplify_eq.
  - intros (He & Hs & Hsk & ->). exists e. split; [|done].
    apply list_elem_of_bind. exists s. rewrite Hsk. split; [|done].
    by apply list_elem_of_singleton.
Qed.

Lemma elem_of_dispatch_systems w elapsed s e el :
  EvUpdate s e el ∈ dispatch_systems w elapsed
  ↔ s ∈ systems (ecs w) ∧ e ∈ s_entities (sys w s)
    ∧ skipped w s = false ∧ el = elapsed.
Proof.
  unfold dispatch_systems. rewrite list_elem_of_bind. split.
  - intros (s' & Hin & Hs'). apply list_elem_of_bind in Hin as (e' & Hin & He').
    destruct (skipped w s') eqn:Hsk; [by apply elem_of_nil in Hin|].
    apply list_elem_of_singleton in Hin. by simplify_eq.
  - intros (Hs & He & Hsk & ->). exists s. split; [|done].
    apply list_elem_of_bind. exists e. rewrite Hsk. split; [|done].
    by apply list_elem_of_singleton.
Qed.

Lemma visits_dispatch_mirrored w elapsed e s :
  mirrored w →
  visits (dispatch_systems w elapsed) e s ↔ visits (dispatch_entities w elapsed) e s.
Proof.
  intros Hm. unfold visits. split; intros [el H]; exists el.
  - apply elem_of_dispatch_systems in H as (Hs & He & Hsk & ->).
    apply elem_of_dispatch_entities. destruct (proj2 (Hm e s)); done.
  - apply elem_of_dispatch_entities in H as (He & Hs & Hsk & ->).
    apply elem_of_dispatch_systems. destruct (proj1 (Hm e s)); done.
Qed.

(** ** Dispatch: frequency gating and the two traversals *)




(** The scenario of the specification: three ticks from counter 0 call
    [s1.update(e1, _)] on ticks 0 and 2 and skip tick 1. *)
Example scenario_three_ticks :
  s_entities (sys scenario 1) = [1%nat]
  ∧ (ticks idle 10 0 3 scenario).2
    = [[EvUpdate 1 1 1]; []; [EvUpdate 1 1 1]]
  ∧ updateCounter (ecs (ticks idle 10 0 3 scenario).1) = 3.
Proof. vm_compute. done. Qed.

(** A system registered when the counter is 1 is not called at its first
    tick: with frequency 2 it is called when the counter is 2. *)
Example registered_mid_run :
  updateCounter (ecs late_registration) = 1
  ∧ s_entities (sys late_registration 1) = [1%nat]
  ∧ (ticks idle 10 1 3 late_registration).2
    = [[]; [EvUpdate 1 1 1]; []].
Proof. vm_compute. done. Qed.

(** C2, as stated, fails once a system that tracks an entity has been
    removed: after [addSystem(s0)], [addEntity(e0)], [removeSystem(s0)]
    the cache of [e0] still lists [s0], so the entities-first traversal
    visits [(e0, s0)] and the systems-first traversal visits nothing,
    with a callback that mutates nothing. *)
Lemma dual_traversal_counterexample :
  session (VObj []) 0 removed_system
  = Normal (run_ops (new_World entities_first) removed_system)
  ∧ session (VObj [("systemsFirst"%string, VBool true)]) 0 removed_system
    = Normal (run_ops (new_World systems_first) removed_system)
  ∧ run_ops (new_World systems_first) removed_system
    = with_mode (VBool true) (run_ops (new_World entities_first) removed_system)
  ∧ (∃ w', update idle 10 5 (run_ops (new_World entities_first) removed_system)
           = Done w' [EvUpdate 0 0 5])
  ∧ (∃ w', update idle 10 5 (run_ops (new_World systems_first) removed_system)
           = Done w' [])
  ∧ ¬ (∀ e s,
         visits (trace_of (update idle 10 5
                   (run_ops (new_World systems_first) removed_system))) e s
         ↔ visits (trace_of (update idle 10 5
                     (run_ops (new_World entities_first) removed_system))) e s).
Proof.
  split_and!; try reflexivity.
  - eexists. vm_compute. reflexivity.
  - eexists. vm_compute. reflexivity.
  - intros H. destruct (proj2 (H 0%nat 0%nat)) as [el Hel].
    + exists 5. vm_compute. left.
    + vm_compute in Hel. by apply elem_of_nil in Hel.
Qed.

(** The two traversals also part when a callback rewrites a gating
    field: with every system tracking every entity and [s1] switching
    [s0] off, systems-first reaches [(e1, s0)] before the switch and
    entities-first after it. *)
Lemma dual_traversal_needs_fixed_gates :
  (∀ s e elapsed w,
     entities (ecs (switch_off s e elapsed w)) = entities (ecs w)
     ∧ systems (ecs (switch_off s e elapsed w)) = systems (ecs w)
     ∧ (∀ e', e_systems (ent (switch_off s e elapsed w) e') = e_systems (ent w e'))
     ∧ (∀ s', s_entities (sys (switch_off s e elapsed w) s') = s_entities (sys w s')))
  ∧ mirrored (run_ops (new_World entities_first) two_by_two)
  ∧ visits (trace_of (update switch_off 10 5
              (with_mode (VBool true) (run_ops (new_World entities_first) two_by_two))))
           1%nat 0%nat
  ∧ ¬ visits (trace_of (update switch_off 10 5
                (with_mode (VBool false) (run_ops (new_World entities_first) two_by_two))))
             1%nat 0%nat.
Proof.
  split_and!.
  - intros s e elapsed w. unfold switch_off.
    destruct (Nat.eqb s 1); [|done].
    split_and!; try done.
    intros s'. unfold sys, set_sys. simpl.
    destruct (decide (s' = 0%nat)) as [->|].
    + by rewrite lookup_insert_eq.
    + by rewrite lookup_insert_ne.
  - apply mirrored_b_sound. vm_compute. reflexivity.
  - exists 5. decided.
  - intros [el Hel]. vm_compute in Hel.
    repeat (apply elem_of_cons in Hel as [Hel|Hel]; [discriminate|]).
    by apply elem_of_nil in Hel.
Qed.

(** C2 (as amended): when the membership caches mirror the tracked lists
    and no callback changes a list, the counter or a gating field during
    the tick, [update()] visits the same set of (entity, system) pairs
    under the systems-first and the entities-first traversal. *)
Theorem dual_traversal upd fuel now w :
  quiet upd → mirrored w → (enough_fuel w ≤ fuel)%nat →
  ∃ wa tra wb trb,
    update upd fuel now (with_mode (VBool true) w) = Done wa tra
    ∧ update upd fuel now (with_mode (VBool false) w) = Done wb trb
    ∧ ∀ e s, visits tra e s ↔ visits trb e s.
Proof.
  intros Hq Hm Hf.
  destruct (update_quiet upd Hq fuel now (with_mode (VBool true) w) Hf)
    as (wa & Ha & _).
  destruct (update_quiet upd Hq fuel now (with_mode (VBool false) w) Hf)
    as (wb & Hb & _).
  eexists _, _, _, _. split; [exact Ha|]. split; [exact Hb|].
  intros e s. unfold dispatch. simpl.
  apply (visits_dispatch_mirrored w _ e s Hm).
Qed.

Lemma dual_traversal_witness :
  ∃ wa tra wb trb,
    update idle 10 5
      (with_mode (VBool true) (run_ops (new_World entities_first) two_by_two))
    = Done wa tra
    ∧ update idle 10 5
        (with_mode (VBool false) (run_ops (new_World entities_first) two_by_two))
      = Done wb trb
    ∧ ∀ e s, visits tra e s ↔ visits trb e s.
Proof.
  apply (dual_traversal idle 10 5 (run_ops (new_World entities_first) two_by_two)).
  - apply quiet_idle.
  - apply mirrored_b_sound. vm_compute. reflexivity.
  - vm_compute. lia.
Defined.

(** ** What holds of every call of a tick, whatever the callbacks do *)

Section TraceInvariant.

Variable upd : SysRef -> EntRef -> Z -> World -> World.
Variable Inv : World → Prop.
Variable Q : Event → Prop.
Variable elapsed : Z.
Hypothesis Inv_upd : ∀ s e w, Inv w → Inv (upd s e elapsed w).
Hypothesis Q_call : ∀ s e w, Inv w → skipped w s = false → Q (EvUpdate s e elapsed).

Lemma updateEntities_inner_inv fuel entity :
  ∀ j w tr, Inv w → Forall Q tr →
    Inv (world_of (updateEntities_inner upd fuel entity elapsed j w tr))
    ∧ Forall Q (trace_of (updateEntities_inner upd fuel entity elapsed j w tr)).
Proof.
  induction fuel as [|fuel IH]; intros j w tr Hw Htr; [done|].
  simpl. destruct (e_systems (ent w entity) !! j) as [system|]; [|done].
  destruct (skipped w system) eqn:Hsk; [by apply IH|].
  apply IH; [by apply Inv_upd|].
  apply Forall_app. split; [done|]. apply Forall_singleton. eauto.
Qed.

Lemma updateSystems_inner_inv fuel system :
  ∀ j w tr, Inv w → Forall Q tr →
    Inv (world_of (updateSystems_inner upd fuel system elapsed j w tr))
    ∧ Forall Q (trace_of (updateSystems_inner upd fuel system elapsed j w tr)).
Proof.
  induction fuel as [|fuel IH]; intros j w tr Hw Htr; [done|].
  simpl. destruct (s_entities (sys w system) !! j) as [entity|]; [|done].
  destruct (skipped w system) eqn:Hsk; [by apply IH|].
  apply IH; [by apply Inv_upd|].
  apply Forall_app. split; [done|]. apply Forall_singleton. eauto.
Qed.

Lemma updateEntities_outer_inv fuel :
  ∀ i w tr, Inv w → Forall Q tr →
    Inv (world_of (updateEntities_outer upd fuel elapsed i w tr))
    ∧ Forall Q (trace_of (updateEntities_outer upd fuel elapsed i w tr)).
Proof.
  induction fuel as [|fuel IH]; intros i w tr Hw Htr; [done|].
  simpl. destruct (entities (ecs w) !! i) as [entity|]; [|done].
  pose proof (updateEntities_inner_inv fuel entity 0 w tr Hw Htr) as [H1 H2].
  destruct (updateEntities_inner upd fuel entity elapsed 0 w tr); [|done].
  by apply IH.
Qed.

Lemma updateSystems_outer_inv fuel :
  ∀ i w tr, Inv w → Forall Q tr →
    Inv (world_of (updateSystems_outer upd fuel elapsed i w tr))
    ∧ Forall Q (trace_of (updateSystems_outer upd fuel elapsed i w tr)).
Proof.
  induction fuel as [|fuel IH]; intros i w tr Hw Htr; [done|].
  simpl. destruct (systems (ecs w) !! i) as [system|]; [|done].
  pose proof (updateSystems_inner_inv fuel system 0 w tr Hw Htr) as [H1 H2].
  destruct (updateSystems_inner upd fuel system elapsed 0 w tr); [|done].
  by apply IH.
Qed.

Lemma traversal_inv fuel w :
  Inv w → Forall Q (trace_of (traversal upd fuel elapsed w)).
Proof.
  intros Hw. unfold traversal. destruct (truthy (systemsFirst (ecs w))).
  - by apply updateSystems_outer_inv.
  - by apply updateEntities_outer_inv.
Qed.

End TraceInvariant.

(** [update] is the selected traversal followed by the bookkeeping. *)
Lemma update_traversal upd fuel now w :
  update upd fuel now w
  = match traversal upd fuel (now - lastUpdate (ecs w)) w with
    | Done wl tr => Done (set_ecs (tick now (ecs wl)) wl) tr
    | OutOfFuel wl tr => OutOfFuel wl tr
    end.
Proof.
  unfold update, traversal, updateSystems, updateEntities.
  by destruct (truthy (systemsFirst (ecs w))).
Qed.

Lemma trace_update_traversal upd fuel now w :
  trace_of (update upd fuel now w)
  = trace_of (traversal upd fuel (now - lastUpdate (ecs w)) w).
Proof.
  rewrite update_traversal.
  by destruct (traversal upd fuel (now - lastUpdate (ecs w)) w).
Qed.

Lemma skipped_enabled w s : skipped w s = false → s_enable (sys w s) = true.
Proof.
  unfold skipped. intros [_ H]%orb_false_iff. by apply negb_false_iff in H.
Qed.

(** C7: a system whose [enable] is false, and which no callback switches
    on during the tick, gets no [update] call from [update()], on any
    entity and at any value of the tick counter, under either traversal
    and however far the tick gets. *)
Theorem disabled_never_updated upd fuel now w s :
  (∀ s' e' el w0, s_enable (sys w0 s) = false →
                  s_enable (sys (upd s' e' el w0) s) = false) →
  s_enable (sys w s) = false →
  ∀ e el, EvUpdate s e el ∉ trace_of (update upd fuel now w).
Proof.
  intros Hkeep Hoff e el Hin. rewrite trace_update_traversal in Hin.
  pose proof (traversal_inv upd
                (λ w0, s_enable (sys w0 s) = false)
                (λ ev, ∀ e el, ev ≠ EvUpdate s e el)
                (now - lastUpdate (ecs w))) as H.
  eapply Forall_forall in H; [by eapply H| | |exact Hoff|exact Hin].
  - intros s' e' w0. apply Hkeep.
  - intros s' e' w0 Hw0 Hsk e0 el0 [= -> _ _].
    apply skipped_enabled in Hsk. congruence.
Qed.

Lemma disabled_never_updated_witness :
  EvUpdate 1 1 5 ∉ trace_of (update idle 10 5 scenario_off).
Proof.
  apply (disabled_never_updated idle 10 5 scenario_off 1).
  - intros s' e' el w0 H. exact H.
  - reflexivity.
Defined.

(** The tick of the witness is an eligible one: the same population with
    [s1] enabled gets the call. *)
Example disabled_on_eligible_tick :
  updateCounter (ecs scenario_off) mod s_frequency (sys scenario_off 1) = 0
  ∧ update idle 10 5 scenario_off
    = Done (set_ecs (tick 5 (ecs scenario_off)) scenario_off) []
  ∧ trace_of (update idle 10 5 scenario) = [EvUpdate 1 1 5].
Proof. vm_compute. done. Qed.

(** ** How registrations and removals treat the registry's own fields *)

Lemma ecs_attach_matching s e w : ecs (attach_matching s e w) = ecs w.
Proof. unfold attach_matching. by destruct (System_test s e w). Qed.

Lemma ecs_attach_systems entity l :
  ∀ w, ecs (foldl (fun acc system => attach_matching system entity acc) w l) = ecs w.
Proof.
  induction l as [|a l IH]; intros w; [done|].
  simpl. by rewrite IH, ecs_attach_matching.
Qed.

Lemma ecs_attach_entities system l :
  ∀ w, ecs (foldl (fun acc entity => attach_matching system entity acc) w l) = ecs w.
Proof.
  induction l as [|a l IH]; intros w; [done|].
  simpl. by rewrite IH, ecs_attach_matching.
Qed.

Lemma ecs_System_removeEntity s e w : ecs (System_removeEntity s e w) = ecs w.
Proof.
  unfold System_removeEntity. by destruct (indexOf e (s_entities (sys w s))).
Qed.

Lemma ecs_detach e l :
  ∀ w, ecs (foldl (fun acc s => System_removeEntity s e acc) w l) = ecs w.
Proof.
  induction l as [|a l IH]; intros w; [done|].
  simpl. by rewrite IH, ecs_System_removeEntity.
Qed.

Lemma ecs_Entity_dispose e w : ecs (Entity_dispose e w) = ecs w.
Proof. unfold Entity_dispose. simpl. apply ecs_detach. Qed.

Lemma ecs_addEntity e w : ecs (addEntity e w) = push_entity e (ecs w).
Proof. unfold addEntity. by rewrite ecs_attach_systems. Qed.

Lemma ecs_addSystem s w : ecs (addSystem s w).1 = push_system s (ecs w).
Proof. unfold addSystem. simpl. by rewrite ecs_attach_entities. Qed.

Lemma ecs_removeEntity e w :
  ecs (removeEntity e w).1.1
  = match indexOf e (entities (ecs w)) with
    | Some index => with_entities (fastSplice (entities (ecs w)) index) (ecs w)
    | None => ecs w
    end.
Proof.
  unfold removeEntity. destruct (indexOf e (entities (ecs w))); [|done].
  cbn [fst snd set_ecs ecs]. by rewrite ecs_Entity_dispose.
Qed.

Lemma run_op_clock w o :
  lastUpdate (ecs (run_op w o)) = lastUpdate (ecs w)
  ∧ updateCounter (ecs (run_op w o)) = updateCounter (ecs w)
  ∧ systemsFirst (ecs (run_op w o)) = systemsFirst (ecs w).
Proof.
  destruct o as [e|e|s|s]; cbn [run_op].
  - by rewrite ecs_addEntity.
  - rewrite ecs_removeEntity. by destruct (indexOf e (entities (ecs w))).
  - by rewrite ecs_addSystem.
  - unfold removeSystem. by destruct (indexOf s (systems (ecs w))).
Qed.

Lemma run_ops_clock l :
  ∀ w, lastUpdate (ecs (run_ops w l)) = lastUpdate (ecs w)
       ∧ updateCounter (ecs (run_ops w l)) = updateCounter (ecs w)
       ∧ systemsFirst (ecs (run_ops w l)) = systemsFirst (ecs w).
Proof.
  induction l as [|o l IH]; intros w; [done|].
  unfold run_ops in *. simpl.
  destruct (IH (run_op w o)) as (-> & -> & ->). apply run_op_clock.
Qed.

(** ** The tick counter and the clock *)





(** A registry constructed at clock reading 100: the first tick, at 150,
    hands its system 50, the second, at 151, hands it 1. *)
Example first_elapsed_run :
  session (VObj []) 100 one_pair = Normal constructed_at_100
  ∧ (ticks idle 10 149 2 constructed_at_100).2
    = [[EvUpdate 0 0 50]; [EvUpdate 0 0 1]].
Proof. vm_compute. done. Qed.

(** ** [indexOf] and unordered removal *)

Lemma indexOf_None x l : indexOf x l = None ↔ x ∉ l.
Proof.
  induction l as [|y l IH]; simpl.
  - split; [intros _; apply not_elem_of_nil|done].
  - rewrite not_elem_of_cons. destruct (Nat.eqb_spec y x) as [->|Hne].
    + split; [done|]. by intros [? _].
    + destruct (indexOf x l); simpl.
      * split; [done|]. intros [_ H]. by apply IH in H.
      * split; [|done]. intros _. split; [done|]. by apply IH.
Qed.

(** [indexOf] answers with the first position that holds the reference. *)
Lemma indexOf_Some x l i :
  indexOf x l = Some i → l !! i = Some x ∧ ∀ j, (j < i)%nat → l !! j ≠ Some x.
Proof.
  revert i. induction l as [|y l IH]; intros i; simpl; [done|].
  destruct (Nat.eqb_spec y x) as [->|Hne].
  - intros [= <-]. split; [done|]. intros j Hj. lia.
  - destruct (indexOf x l) as [k|]; simpl; [|done].
    intros [= <-]. destruct (IH k eq_refl) as [H1 H2]. split; [done|].
    intros [|j] Hj; simpl; [congruence|]. apply H2. lia.
Qed.

Lemma indexOf_elem_of x l : x ∈ l → ∃ i, indexOf x l = Some i.
Proof.
  intros Hx. destruct (indexOf x l) as [i|] eqn:Hi; [eauto|].
  by apply indexOf_None in Hi.
Qed.

Lemma fastSplice_snoc {A} (l : list A) (y : A) index :
  (index ≤ length l)%nat →
  fastSplice (l ++ [y]) index
  = if decide (index = length l) then l else <[index := y]> l.
Proof.
  intros Hle. unfold fastSplice.
  rewrite last_snoc, length_app. simpl.
  destruct (Nat.ltb_spec index (length l + 1)); [|lia].
  replace (length l + 1 - 1)%nat with (length l) by lia.
  case_decide as Hi.
  - subst index. rewrite insert_app_r_alt by lia.
    replace (length l - length l)%nat with 0%nat by lia.
    simpl. by rewrite take_app_length.
  - rewrite insert_app_l by lia.
    by rewrite take_app_length' by (by rewrite length_insert).
Qed.

(** Unordered removal: one element shorter, the removed position holds
    the former last element, every other position is as before. *)
Lemma fastSplice_spec {A} (l : list A) index x :
  l !! index = Some x →
  length (fastSplice l index) = (length l - 1)%nat
  ∧ (∀ i, (i < length l - 1)%nat → i ≠ index → fastSplice l index !! i = l !! i)
  ∧ ((index < length l - 1)%nat → fastSplice l index !! index = last l)
  ∧ l ≡ₚ x :: fastSplice l index.
Proof.
  intros Hx. pose proof (lookup_lt_Some _ _ _ Hx) as Hlt.
  destruct (last l) as [y|] eqn:Hlast;
    [|apply last_None in Hlast; subst; simpl in Hlt; lia].
  apply last_Some in Hlast as [l1 ->].
  rewrite length_app in *. simpl in *.
  rewrite fastSplice_snoc by lia.
  replace (length l1 + 1 - 1)%nat with (length l1) by lia.
  case_decide as Hi.
  - subst index. split_and!; [done| |lia|].
    + intros i Hi _. by rewrite lookup_app_l.
    + rewrite lookup_app_r in Hx by lia.
      replace (length l1 - length l1)%nat with 0%nat in Hx by lia.
      simpl in Hx. injection Hx as <-.
      by rewrite Permutation_app_comm.
  - assert (index < length l1)%nat as Hlt' by lia.
    rewrite lookup_app_l in Hx by done.
    split_and!.
    + by rewrite length_insert.
    + intros i Hil Hne. rewrite list_lookup_insert_ne by done.
      by rewrite lookup_app_l.
    + intros _. by apply list_lookup_insert_eq.
    + rewrite insert_take_drop by done.
      rewrite <- (take_drop_middle l1 index x Hx) at 1.
      rewrite <- app_assoc. simpl.
      solve_Permutation.
Qed.

(** ** Reading the store after a write *)

Lemma ent_set_ent e o w e' :
  ent (set_ent e o w) e' = if decide (e' = e) then o else ent w e'.
Proof.
  unfold ent, set_ent. simpl. case_decide as H.
  - subst. by rewrite lookup_insert_eq.
  - by rewrite lookup_insert_ne.
Qed.

Lemma sys_set_sys s o w s' :
  sys (set_sys s o w) s' = if decide (s' = s) then o else sys w s'.
Proof.
  unfold sys, set_sys. simpl. case_decide as H.
  - subst. by rewrite lookup_insert_eq.
  - by rewrite lookup_insert_ne.
Qed.

Lemma tracked_System_addEntity s e w s' :
  s_entities (sys (System_addEntity s e w) s')
  = s_entities (sys w s') ++ (if decide (s' = s) then [e] else []).
Proof.
  unfold System_addEntity. rewrite sys_set_sys.
  case_decide; subst; simpl; [done|]. by rewrite app_nil_r.
Qed.

Lemma cache_System_addEntity s e w e' :
  e_systems (ent (System_addEntity s e w) e')
  = e_systems (ent w e') ++ (if decide (e' = e) then [s] else []).
Proof.
  unfold System_addEntity.
  change (ent (set_sys ?s ?o ?w) e') with (ent w e').
  rewrite ent_set_ent. case_decide; subst; simpl; [done|]. by rewrite app_nil_r.
Qed.

Lemma test_System_addEntity s e w s' e' :
  System_test s' e' (System_addEntity s e w) = System_test s' e' w.
Proof.
  unfold System_test, System_addEntity.
  change (ent (set_sys ?s ?o ?w) e') with (ent w e').
  rewrite sys_set_sys, ent_set_ent.
  by destruct (decide (e' = e)) as [->|], (decide (s' = s)) as [->|].
Qed.

Lemma test_attach_matching s e w s' e' :
  System_test s' e' (attach_matching s e w) = System_test s' e' w.
Proof.
  unfold attach_matching. destruct (System_test s e w); [|done].
  apply test_System_addEntity.
Qed.

(** The loop of [addEntity]: what it leaves in the tracked lists and in
    the membership caches. *)
Lemma attach_systems entity l :
  ∀ w,
    let w' := foldl (fun acc system => attach_matching system entity acc) w l in
    (∀ s e, System_test s e w' = System_test s e w)
    ∧ (∀ s, s_entities (sys w' s)
            = s_entities (sys w s)
              ++ if System_test s entity w
                 then replicate (occurrences s l) entity else [])
    ∧ (∀ e, e_systems (ent w' e)
            = e_systems (ent w e)
              ++ if decide (e = entity)
                 then List.filter (λ s, System_test s entity w) l else []).
Proof.
  induction l as [|a l IH]; intros w; cbn [foldl]; cbv zeta.
  - split_and!; [done| |].
    + intros s. destruct (System_test s entity w); by rewrite app_nil_r.
    + intros e. case_decide; by rewrite app_nil_r.
  - destruct (IH (attach_matching a entity w)) as (Ht & Hs & He).
    cbv zeta in Ht, Hs, He. split_and!.
    + intros s e. by rewrite Ht, test_attach_matching.
    + intros s. rewrite Hs, test_attach_matching, occurrences_cons.
      unfold attach_matching.
      destruct (System_test a entity w) eqn:Ha.
      * rewrite tracked_System_addEntity, <- app_assoc. f_equal.
        destruct (Nat.eqb_spec s a) as [->|Hne].
        -- rewrite decide_True, Ha by done. done.
        -- rewrite decide_False by done. done.
      * destruct (Nat.eqb_spec s a) as [->|Hne]; [by rewrite Ha|done].
    + intros e. rewrite He.
      rewrite (List.filter_ext _ (λ s, System_test s entity w))
        by (intros s; apply test_attach_matching).
      unfold attach_matching. cbn [List.filter].
      destruct (System_test a entity w) eqn:Ha; [|done].
      rewrite cache_System_addEntity, <- app_assoc. f_equal.
      by case_decide.
Qed.

Lemma occurrences_app x l k :
  occurrences x (l ++ k) = (occurrences x l + occurrences x k)%nat.
Proof. unfold occurrences. by rewrite List.filter_app, length_app. Qed.

Lemma occurrences_elem_of x l : x ∈ l → (1 ≤ occurrences x l)%nat.
Proof.
  induction 1 as [x l|x y l _ IH]; rewrite occurrences_cons.
  - rewrite Nat.eqb_refl. lia.
  - lia.
Qed.

(** ** Registration *)

(** What [addEntity] does to the lists, whether or not the entity is
    already registered. *)
Lemma addEntity_lists e w :
  entities (ecs (addEntity e w)) = entities (ecs w) ++ [e]
  ∧ systems (ecs (addEntity e w)) = systems (ecs w)
  ∧ (∀ s, s_entities (sys (addEntity e w) s)
          = s_entities (sys w s)
            ++ if System_test s e w
               then replicate (occurrences s (systems (ecs w))) e else [])
  ∧ (∀ e', e_systems (ent (addEntity e w) e')
           = e_systems (ent w e')
             ++ if decide (e' = e)
                then List.filter (λ s, System_test s e w) (systems (ecs w)) else []).
Proof.
  rewrite ecs_addEntity. split; [done|]. split; [done|].
  unfold addEntity.
  set (w2 := set_ent e _ _).
  assert (∀ s e', System_test s e' w2 = System_test s e' w) as Htest.
  { intros s e'. unfold System_test, w2.
    change (sys (set_ent ?a ?o ?v) s) with (sys v s).
    rewrite ent_set_ent. by case_decide; subst. }
  assert (∀ e', e_systems (ent w2 e') = e_systems (ent w e')) as Hcache.
  { intros e'. unfold w2. rewrite ent_set_ent. by case_decide; subst. }
  destruct (attach_systems e (systems (ecs w2)) w2) as (_ & Hs & He).
  cbv zeta in Hs, He. split.
  - intros s. by rewrite Hs, Htest.
  - intros e'. rewrite He, Hcache.
    by rewrite (List.filter_ext _ (λ s, System_test s e w)) by (intros s; apply Htest).
Qed.

(** C3, as stated, fails: [addEntity] has no guard.  With [s0] and [e0]
    registered, a second [addEntity(e0)] leaves [e0] twice in the entity
    list, twice in the tracked list of [s0], and [s0] twice in the cache
    of [e0]. *)
Lemma addEntity_again_counterexample :
  0%nat ∈ entities (ecs (run_ops (new_World entities_first) one_pair))
  ∧ entities (ecs (run_ops (new_World entities_first) one_pair)) = [0%nat]
  ∧ entities (ecs (addEntity 0 (run_ops (new_World entities_first) one_pair)))
    = [0%nat; 0%nat]
  ∧ s_entities (sys (run_ops (new_World entities_first) one_pair) 0) = [0%nat]
  ∧ s_entities (sys (addEntity 0 (run_ops (new_World entities_first) one_pair)) 0)
    = [0%nat; 0%nat]
  ∧ e_systems (ent (run_ops (new_World entities_first) one_pair) 0) = [0%nat]
  ∧ e_systems (ent (addEntity 0 (run_ops (new_World entities_first) one_pair)) 0)
    = [0%nat; 0%nat].
Proof. split_and!; [decided|reflexivity..]. Qed.

(** C3 (as amended): [addEntity(e)] on an entity that is already in the
    entity list is not guarded: it appends [e] to the entity list once
    more, so that [e] is there at least twice, and attaches [e] once more
    to every registered system whose predicate matches, appending [e] to
    that system's tracked list and the system to the cache of [e]; the
    system list and the caches of the other entities are unchanged. *)
Theorem addEntity_again e w :
  e ∈ entities (ecs w) →
  entities (ecs (addEntity e w)) = entities (ecs w) ++ [e]
  ∧ (2 ≤ occurrences e (entities (ecs (addEntity e w))))%nat
  ∧ systems (ecs (addEntity e w)) = systems (ecs w)
  ∧ (∀ s, s_entities (sys (addEntity e w) s)
          = s_entities (sys w s)
            ++ if System_test s e w
               then replicate (occurrences s (systems (ecs w))) e else [])
  ∧ e_systems (ent (addEntity e w) e)
    = e_systems (ent w e) ++ List.filter (λ s, System_test s e w) (systems (ecs w))
  ∧ (∀ e', e' ≠ e → e_systems (ent (addEntity e w) e') = e_systems (ent w e')).
Proof.
  intros He. destruct (addEntity_lists e w) as (H1 & H2 & H3 & H4).
  split_and!; [done| |done|done| |].
  - rewrite H1, occurrences_app, occurrences_cons, Nat.eqb_refl.
    pose proof (occurrences_elem_of e _ He). simpl. lia.
  - by rewrite H4, decide_True.
  - intros e' Hne. by rewrite H4, decide_False, app_nil_r.
Qed.

Lemma addEntity_again_witness :
  entities (ecs (addEntity 1 scenario)) = entities (ecs scenario) ++ [1%nat]
  ∧ (2 ≤ occurrences 1 (entities (ecs (addEntity 1 scenario))))%nat
  ∧ systems (ecs (addEntity 1 scenario)) = systems (ecs scenario)
  ∧ (∀ s, s_entities (sys (addEntity 1 scenario) s)
          = s_entities (sys scenario s)
            ++ if System_test s 1 scenario
               then replicate (occurrences s (systems (ecs scenario))) 1%nat else [])
  ∧ e_systems (ent (addEntity 1 scenario) 1)
    = e_systems (ent scenario 1)
      ++ List.filter (λ s, System_test s 1 scenario) (systems (ecs scenario))
  ∧ (∀ e', e' ≠ 1%nat →
           e_systems (ent (addEntity 1 scenario) e') = e_systems (ent scenario e')).
Proof.
  apply (addEntity_again 1 scenario). decided.
Defined.

(** ** Removal *)

(** C4, as stated, fails on the returned value: [removeSystem] has no
    [return] statement, so removing a system that is not registered
    answers [undefined], not the system. *)
Lemma removeSystem_absent_counterexample :
  (0%nat ∉ systems (ecs (new_World entities_first)))
  ∧ (removeSystem 0 (new_World entities_first)).2 = VUndefined
  ∧ (removeSystem 0 (new_World entities_first)).2 ≠ VRef 0.
Proof. split_and!; [decided|reflexivity|discriminate]. Qed.

(** C4 (as amended): [removeSystem(s)] on a system that is not in the
    system list is a silent no-op: [dispose] is not called, the system
    list and the rest of the store are unchanged; the call returns
    [undefined]. *)
Theorem removeSystem_absent s w :
  s ∉ systems (ecs w) →
  removeSystem s w = (w, [], VUndefined).
Proof.
  intros Hs. unfold removeSystem.
  by rewrite (proj2 (indexOf_None s (systems (ecs w))) Hs).
Qed.

Lemma removeSystem_absent_witness :
  removeSystem 5 scenario = (scenario, [], VUndefined).
Proof. apply (removeSystem_absent 5 scenario). decided. Defined.

Lemma removeEntity_absent_store e w :
  e ∉ entities (ecs w) →
  (removeEntity e w).2 = VRef e
  ∧ (removeEntity e w).1.2 = []
  ∧ (removeEntity e w).1.1 = w.
Proof.
  intros He. unfold removeEntity.
  by rewrite (proj2 (indexOf_None e (entities (ecs w))) He).
Qed.

(** C5: [removeEntity(e)] on an entity that is not in the entity list
    returns [e], does not call its [dispose], and leaves the store as it
    was: the entity list, the system list and every tracked list keep
    their size and contents. *)
Theorem removeEntity_absent e w :
  e ∉ entities (ecs w) →
  (removeEntity e w).2 = VRef e
  ∧ (removeEntity e w).1.2 = []
  ∧ (removeEntity e w).1.1 = w
  ∧ entities (ecs (removeEntity e w).1.1) = entities (ecs w)
  ∧ systems (ecs (removeEntity e w).1.1) = systems (ecs w)
  ∧ ∀ s, s_entities (sys (removeEntity e w).1.1 s) = s_entities (sys w s).
Proof.
  intros He. unfold removeEntity.
  by rewrite (proj2 (indexOf_None e (entities (ecs w))) He).
Qed.

Lemma removeEntity_absent_witness :
  (removeEntity 5 scenario).2 = VRef 5
  ∧ (removeEntity 5 scenario).1.2 = []
  ∧ (removeEntity 5 scenario).1.1 = scenario
  ∧ entities (ecs (removeEntity 5 scenario).1.1) = entities (ecs scenario)
  ∧ systems (ecs (removeEntity 5 scenario).1.1) = systems (ecs scenario)
  ∧ ∀ s, s_entities (sys (removeEntity 5 scenario).1.1 s) = s_entities (sys scenario s).
Proof. apply (removeEntity_absent 5 scenario). decided. Defined.




(** Removing the first of two entities: the second takes its place, and
    both systems have let go of the removed one. *)
Example removeEntity_swaps :
  entities (ecs (run_ops (new_World entities_first) two_by_two)) = [0%nat; 1%nat]
  ∧ entities (ecs (removeEntity 0 (run_ops (new_World entities_first) two_by_two)).1.1)
    = [1%nat]
  ∧ s_entities (sys (removeEntity 0 (run_ops (new_World entities_first) two_by_two)).1.1 0)
    = [1%nat]
  ∧ s_entities (sys (removeEntity 0 (run_ops (new_World entities_first) two_by_two)).1.1 1)
    = [1%nat]
  ∧ fastSplice [10%nat; 11%nat; 12%nat; 13%nat] 1 = [10%nat; 13%nat; 12%nat].
Proof. vm_compute. done. Qed.

(** ** Construction *)

(** C9, as stated, fails for a primitive argument: reading a property of
    a number does not throw, so [new ECS(42)] constructs a registry, in
    entities-first mode. *)
Lemma constructor_counterexample :
  (∀ props, VNum 42 ≠ VObj props)
  ∧ constructor (VNum 42) 0 = Normal entities_first
  ∧ constructor (VNum 42) 0 ≠ Throw TypeError.
Proof. split_and!; [done|reflexivity|discriminate]. Qed.

Lemma update_entities_first upd fuel now w :
  truthy (systemsFirst (ecs w)) = false →
  update upd fuel now w = updateEntities upd fuel now (now - lastUpdate (ecs w)) w.
Proof. unfold update. by intros ->. Qed.

(** C9 (as amended): the constructor reads [options.systemsFirst]
    unconditionally, so it throws when called without an argument (with
    [undefined]) or with [null]; with any other argument it constructs
    the registry: a primitive argument, or an object whose
    [systemsFirst] is absent or falsy, gives [systemsFirst = false],
    under which [update()] runs the entities-first traversal. *)
Theorem constructor_options options now :
  (constructor options now = Throw TypeError
   ↔ options = VUndefined ∨ options = VNull)
  ∧ (∀ r, constructor options now = Normal r →
          entities r = [] ∧ systems r = []
          ∧ match options with
            | VObj props =>
                truthy (systemsFirst r) = truthy (own_prop "systemsFirst" props)
                ∧ (truthy (own_prop "systemsFirst" props) = false →
                   systemsFirst r = VBool false)
            | _ => systemsFirst r = VBool false
            end)
  ∧ (∀ r upd fuel now' w,
       constructor options now = Normal r → ecs w = r →
       truthy (systemsFirst r) = false →
       update upd fuel now' w
       = updateEntities upd fuel now' (now' - lastUpdate r) w).
Proof.
  split_and!.
  - destruct options; simpl;
      (split; [intros H; try discriminate H; auto
              |intros [H|H]; try discriminate H; done]).
  - intros r. unfold constructor.
    destruct options; simpl; try done; intros [= <-]; simpl; try done.
    split; [done|]. split; [done|]. unfold js_or.
    destruct (truthy (own_prop "systemsFirst" props)) eqn:Hp; simpl; by rewrite ?Hp.
  - intros r upd fuel now' w _ <- Hf. by apply update_entities_first.
Qed.

Lemma constructor_options_witness :
  entities entities_first = [] ∧ systems entities_first = []
  ∧ truthy (systemsFirst entities_first)
    = truthy (own_prop "systemsFirst" [("other"%string, VNum 1)])
  ∧ (truthy (own_prop "systemsFirst" [("other"%string, VNum 1)]) = false →
     systemsFirst entities_first = VBool false).
Proof.
  apply (proj1 (proj2 (constructor_options (VObj [("other"%string, VNum 1)]) 0))
           entities_first).
  reflexivity.
Defined.

(** ** Membership after a registration *)

Lemma elem_of_List_filter {A} (f : A → bool) (l : list A) x :
  x ∈ List.filter f l ↔ x ∈ l ∧ f x = true.
Proof. by rewrite !list_elem_of_In, filter_In. Qed.

Lemma NoDup_List_filter {A} (f : A → bool) (l : list A) :
  NoDup l → NoDup (List.filter f l).
Proof.
  induction 1 as [|x l Hx Hl IH]; simpl; [constructor|].
  destruct (f x); [|done].
  constructor; [|done]. rewrite elem_of_List_filter. by intros [? _].
Qed.

Lemma occurrences_pos x l : occurrences x l ≠ 0%nat ↔ x ∈ l.
Proof.
  split.
  - intros H. destruct (decide (x ∈ l)) as [|Hn]; [done|].
    by apply occurrences_notin in Hn.
  - intros H%occurrences_elem_of. lia.
Qed.

Lemma NoDup_replicate_occurrences x (y : nat) l :
  NoDup l → NoDup (replicate (occurrences x l) y).
Proof.
  intros Hl. destruct (decide (x ∈ l)) as [Hx|Hx].
  - rewrite occurrences_NoDup by done. apply NoDup_singleton.
  - rewrite occurrences_notin by done. constructor.
Qed.

(** The loop of [addSystem]. *)
Lemma attach_entities system l :
  ∀ w,
    let w' := foldl (fun acc entity => attach_matching system entity acc) w l in
    (∀ s e, System_test s e w' = System_test s e w)
    ∧ (∀ s, s_entities (sys w' s)
            = s_entities (sys w s)
              ++ if decide (s = system)
                 then List.filter (λ e, System_test system e w) l else [])
    ∧ (∀ e, e_systems (ent w' e)
            = e_systems (ent w e)
              ++ if System_test system e w
                 then replicate (occurrences e l) system else []).
Proof.
  induction l as [|a l IH]; intros w; cbn [foldl]; cbv zeta.
  - split_and!; [done| |].
    + intros s. case_decide; by rewrite app_nil_r.
    + intros e. destruct (System_test system e w); by rewrite app_nil_r.
  - destruct (IH (attach_matching system a w)) as (Ht & Hs & He).
    cbv zeta in Ht, Hs, He. split_and!.
    + intros s e. by rewrite Ht, test_attach_matching.
    + intros s. rewrite Hs.
      rewrite (List.filter_ext _ (λ e, System_test system e w))
        by (intros e; apply test_attach_matching).
      unfold attach_matching. cbn [List.filter].
      destruct (System_test system a w) eqn:Ha; [|done].
      rewrite tracked_System_addEntity, <- app_assoc. f_equal.
      by case_decide.
    + intros e. rewrite He, test_attach_matching, occurrences_cons.
      unfold attach_matching.
      destruct (System_test system a w) eqn:Ha.
      * rewrite cache_System_addEntity, <- app_assoc. f_equal.
        destruct (Nat.eqb_spec e a) as [->|Hne].
        -- rewrite decide_True, Ha by done. done.
        -- rewrite decide_False by done. done.
      * destruct (Nat.eqb_spec e a) as [->|Hne]; [by rewrite Ha|done].
Qed.

Lemma addSystem_lists s w :
  systems (ecs (addSystem s w).1) = systems (ecs w) ++ [s]
  ∧ entities (ecs (addSystem s w).1) = entities (ecs w)
  ∧ (∀ s', s_entities (sys (addSystem s w).1 s')
           = s_entities (sys w s')
             ++ if decide (s' = s)
                then List.filter (λ e, System_test s e w) (entities (ecs w)) else [])
  ∧ (∀ e, e_systems (ent (addSystem s w).1 e)
          = e_systems (ent w e)
            ++ if System_test s e w
               then replicate (occurrences e (entities (ecs w))) s else []).
Proof.
  rewrite ecs_addSystem. split; [done|]. split; [done|].
  unfold addSystem. cbn [System_initialize fst].
  destruct (attach_entities s (entities (ecs w)) (set_ecs (push_system s (ecs w)) w))
    as (_ & Hs & He).
  cbv zeta in Hs, He. split.
  - intros s'. by rewrite Hs.
  - intros e. by rewrite He.
Qed.

(** After [addEntity(e)] the attached pairs are the former ones and [e]
    with every registered system whose predicate it meets. *)
Lemma addEntity_membership e w e' s' :
  (s' ∈ e_systems (ent (addEntity e w) e')
   ↔ s' ∈ e_systems (ent w e')
     ∨ (e' = e ∧ s' ∈ systems (ecs w) ∧ System_test s' e w = true))
  ∧ (e' ∈ s_entities (sys (addEntity e w) s')
     ↔ e' ∈ s_entities (sys w s')
       ∨ (e' = e ∧ s' ∈ systems (ecs w) ∧ System_test s' e w = true)).
Proof.
  destruct (addEntity_lists e w) as (_ & _ & Hs & He).
  rewrite Hs, He, !elem_of_app. split.
  - case_decide as Hd.
    + rewrite elem_of_List_filter. intuition congruence.
    + rewrite elem_of_nil. intuition congruence.
  - destruct (System_test s' e w).
    + rewrite elem_of_replicate, occurrences_pos. intuition congruence.
    + rewrite elem_of_nil. intuition congruence.
Qed.

(** After [addSystem(s)] the attached pairs are the former ones and [s]
    with every registered entity that meets its predicate. *)
Lemma addSystem_membership s w e' s' :
  (s' ∈ e_systems (ent (addSystem s w).1 e')
   ↔ s' ∈ e_systems (ent w e')
     ∨ (s' = s ∧ e' ∈ entities (ecs w) ∧ System_test s e' w = true))
  ∧ (e' ∈ s_entities (sys (addSystem s w).1 s')
     ↔ e' ∈ s_entities (sys w s')
       ∨ (s' = s ∧ e' ∈ entities (ecs w) ∧ System_test s e' w = true)).
Proof.
  destruct (addSystem_lists s w) as (_ & _ & Hs & He).
  rewrite Hs, He, !elem_of_app. split.
  - destruct (System_test s e' w).
    + rewrite elem_of_replicate, occurrences_pos. intuition congruence.
    + rewrite elem_of_nil. intuition congruence.
  - case_decide as Hd.
    + rewrite elem_of_List_filter. intuition congruence.
    + rewrite elem_of_nil. intuition congruence.
Qed.

(** ** Registrations and entity removals keep the lists coherent *)

Lemma coherent_mirrored w : coherent w → mirrored w.
Proof.
  intros Hco e s. destruct (Hco e s) as [Hiff Himp]. split.
  - intros [_ Hs]. split; [by apply Himp|by apply Hiff].
  - intros [_ He]. apply Hiff in He. split; [by apply Himp|done].
Qed.

Lemma coherent_new r : entities r = [] → coherent (new_World r).
Proof.
  intros _ e s. unfold ent, sys. simpl. rewrite !lookup_empty. simpl.
  split; [split|]; by intros ?%elem_of_nil.
Qed.

Lemma duplicate_free_new r :
  entities r = [] → systems r = [] → duplicate_free (new_World r).
Proof.
  intros He Hs. split; simpl.
  - rewrite He. constructor.
  - rewrite Hs. constructor.
  - intros e. unfold ent. simpl. rewrite lookup_empty. constructor.
  - intros s. unfold sys. simpl. rewrite lookup_empty. constructor.
Qed.

Lemma addEntity_keeps e w :
  duplicate_free w → coherent w → e ∉ entities (ecs w) →
  duplicate_free (addEntity e w) ∧ coherent (addEntity e w).
Proof.
  intros [Hde Hds Hdc Hdt] Hco He.
  assert (∀ s, s ∉ e_systems (ent w e)) as Hnc.
  { intros s Hs. by destruct (proj2 (Hco e s) Hs). }
  assert (∀ s, e ∉ s_entities (sys w s)) as Hnt.
  { intros s Hs. by apply (Hnc s), (proj1 (Hco e s)). }
  destruct (addEntity_lists e w) as (HE & HS & HT & HC).
  split; [split|].
  - rewrite HE. apply NoDup_app. split; [done|]. split; [|apply NoDup_singleton].
    intros x Hx ->%list_elem_of_singleton. done.
  - by rewrite HS.
  - intros e'. rewrite HC. case_decide as Hd; [subst e'|by rewrite app_nil_r].
    apply NoDup_app. split; [done|]. split; [|by apply NoDup_List_filter].
    intros x Hx. by destruct (Hnc x).
  - intros s. rewrite HT.
    destruct (System_test s e w); [|by rewrite app_nil_r].
    apply NoDup_app. split; [done|]. split; [|by apply NoDup_replicate_occurrences].
    intros x Hx [-> _]%elem_of_replicate. by destruct (Hnt s).
  - intros e' s'. destruct (addEntity_membership e w e' s') as [Hc Ht].
    destruct (Hco e' s') as [Hiff Himp].
    rewrite Hc, Ht, HE, HS, elem_of_app, list_elem_of_singleton.
    split; [tauto|]. intros [H|(-> & Hs & _)]; [|tauto].
    destruct (Himp H). tauto.
Qed.

Lemma addSystem_keeps s w :
  duplicate_free w → coherent w → s ∉ systems (ecs w) →
  duplicate_free (addSystem s w).1 ∧ coherent (addSystem s w).1.
Proof.
  intros [Hde Hds Hdc Hdt] Hco Hs.
  assert (∀ e, s ∉ e_systems (ent w e)) as Hnc.
  { intros e He. by destruct (proj2 (Hco e s) He). }
  assert (∀ e, e ∉ s_entities (sys w s)) as Hnt.
  { intros e He. by apply (Hnc e), (proj1 (Hco e s)). }
  destruct (addSystem_lists s w) as (HS & HE & HT & HC).
  split; [split|].
  - by rewrite HE.
  - rewrite HS. apply NoDup_app. split; [done|]. split; [|apply NoDup_singleton].
    intros x Hx ->%list_elem_of_singleton. done.
  - intros e. rewrite HC.
    destruct (System_test s e w); [|by rewrite app_nil_r].
    apply NoDup_app. split; [done|]. split; [|by apply NoDup_replicate_occurrences].
    intros x Hx [-> _]%elem_of_replicate. by destruct (Hnc e).
  - intros s'. rewrite HT. case_decide as Hd; [subst s'|by rewrite app_nil_r].
    apply NoDup_app. split; [done|]. split; [|by apply NoDup_List_filter].
    intros x Hx. by destruct (Hnt x).
  - intros e' s'. destruct (addSystem_membership s w e' s') as [Hc Ht].
    destruct (Hco e' s') as [Hiff Himp].
    rewrite Hc, Ht, HE, HS, elem_of_app, list_elem_of_singleton.
    split; [tauto|]. intros [H|(-> & He & _)]; [|tauto].
    destruct (Himp H). tauto.
Qed.

(** Detaching: [system.removeEntity(e)] on a tracked list without
    duplicates takes [e] out of it and leaves everything else. *)
Lemma System_removeEntity_spec s e w :
  NoDup (s_entities (sys w s)) →
  ents (System_removeEntity s e w) = ents w
  ∧ (∀ s', s' ≠ s → sys (System_removeEntity s e w) s' = sys w s')
  ∧ NoDup (s_entities (sys (System_removeEntity s e w) s))
  ∧ (∀ x, x ∈ s_entities (sys (System_removeEntity s e w) s)
          ↔ x ∈ s_entities (sys w s) ∧ x ≠ e).
Proof.
  intros Hnd. unfold System_removeEntity.
  destruct (indexOf e (s_entities (sys w s))) as [index|] eqn:Hi.
  - destruct (indexOf_Some _ _ _ Hi) as [Hlook _].
    destruct (fastSplice_spec _ _ _ Hlook) as (_ & _ & _ & Hperm).
    set (l' := fastSplice (s_entities (sys w s)) index) in *.
    rewrite Hperm in Hnd. apply NoDup_cons in Hnd as [Hnot Hnd].
    split; [done|]. split; [|split].
    + intros s' Hne. by rewrite sys_set_sys, decide_False.
    + by rewrite sys_set_sys, decide_True.
    + intros x. rewrite sys_set_sys, decide_True by done. simpl.
      rewrite Hperm, elem_of_cons. split.
      * intros Hx. split; [by right|]. by intros ->.
      * intros [[->|Hx] Hne]; done.
  - apply indexOf_None in Hi. split_and!; try done.
    intros x. split; [|by intros [? _]].
    intros Hx. split; [done|]. by intros ->.
Qed.

Lemma detach_spec e l :
  ∀ w,
    (∀ s, NoDup (s_entities (sys w s))) →
    let w' := foldl (fun acc s => System_removeEntity s e acc) w l in
    ents w' = ents w
    ∧ (∀ s, NoDup (s_entities (sys w' s)))
    ∧ (∀ s x, x ∈ s_entities (sys w' s)
              ↔ x ∈ s_entities (sys w s) ∧ ¬ (s ∈ l ∧ x = e)).
Proof.
  induction l as [|a l IH]; intros w Hnd; cbn [foldl]; cbv zeta.
  - split_and!; [done..|]. intros s x. rewrite elem_of_nil. tauto.
  - destruct (System_removeEntity_spec a e w (Hnd a)) as (Hents & Hother & Hnda & Hin).
    assert (∀ s, NoDup (s_entities (sys (System_removeEntity a e w) s))) as Hnd1.
    { intros s. destruct (decide (s = a)) as [->|Hne]; [done|].
      by rewrite Hother. }
    destruct (IH _ Hnd1) as (Hents' & Hnd' & Hin'). cbv zeta in Hents', Hnd', Hin'.
    split_and!; [by rewrite Hents'|done|].
    intros s x. rewrite Hin', elem_of_cons.
    destruct (decide (s = a)) as [->|Hne].
    + rewrite Hin. tauto.
    + rewrite Hother by done. tauto.
Qed.

Lemma ent_ents w1 w2 e : ents w1 = ents w2 → ent w1 e = ent w2 e.
Proof. unfold ent. by intros ->. Qed.

Lemma removeEntity_found e w :
  e ∈ entities (ecs w) →
  ∃ index,
    entities (ecs w) !! index = Some e
    ∧ removeEntity e w
      = (set_ecs (with_entities (fastSplice (entities (ecs w)) index)
                                (ecs (Entity_dispose e w)))
                 (Entity_dispose e w),
         [EvEntityDispose e],
         VRef e).
Proof.
  intros He. destruct (indexOf_elem_of _ _ He) as [index Hi].
  destruct (indexOf_Some _ _ _ Hi) as [Hlook _].
  exists index. split; [done|].
  unfold removeEntity. by rewrite Hi, !ecs_Entity_dispose.
Qed.

Lemma removeEntity_keeps e w :
  duplicate_free w → coherent w →
  duplicate_free (removeEntity e w).1.1 ∧ coherent (removeEntity e w).1.1
  ∧ (e ∈ entities (ecs w) →
     (e ∉ entities (ecs (removeEntity e w).1.1))
     ∧ ∀ s, e ∉ s_entities (sys (removeEntity e w).1.1 s)).
Proof.
  intros Hdf Hco. pose proof Hdf as [Hde Hds Hdc Hdt].
  destruct (decide (e ∈ entities (ecs w))) as [He|He];
    [|by rewrite (proj2 (proj2 (removeEntity_absent_store e w He)))].
  destruct (removeEntity_found e w He) as (index & Hlook & Hrun).
  destruct (fastSplice_spec _ _ _ Hlook) as (_ & _ & _ & Hperm).
  assert (entities (ecs (removeEntity e w).1.1)
          = fastSplice (entities (ecs w)) index) as Hlist by (by rewrite Hrun).
  rewrite <- Hlist in Hperm. clear Hlist.
  destruct (detach_spec e (e_systems (ent w e)) w Hdt) as (Hents & Hnd & Hin).
  cbv zeta in Hents, Hnd, Hin.
  set (w' := (removeEntity e w).1.1) in *.
  assert (∀ s, s_entities (sys w' s)
               = s_entities (sys (foldl (fun acc s => System_removeEntity s e acc) w
                                        (e_systems (ent w e))) s)) as Htracked.
  { intros s. unfold w'. by rewrite Hrun. }
  assert (∀ e', e_systems (ent w' e')
                = if decide (e' = e) then [] else e_systems (ent w e')) as Hcaches.
  { intros e'. unfold w'. rewrite Hrun. cbn [fst].
    change (ent (set_ecs ?r ?v) e') with (ent v e').
    unfold Entity_dispose. rewrite ent_set_ent.
    case_decide; [done|]. by rewrite (ent_ents _ w e' Hents). }
  assert (systems (ecs w') = systems (ecs w)) as Hsys.
  { unfold w'. rewrite Hrun. cbn [fst set_ecs ecs with_entities systems].
    by rewrite ecs_Entity_dispose. }
  rewrite Hperm in Hde. apply NoDup_cons in Hde as [Hnot Hde'].
  assert (∀ s, e ∉ s_entities (sys w' s)) as Hgone.
  { intros s. rewrite Htracked, Hin. intros [Hx Hn]. apply Hn.
    split; [|done]. by apply (Hco e s). }
  split; [split|split].
  - done.
  - by rewrite Hsys.
  - intros e'. rewrite Hcaches. case_decide; [constructor|done].
  - intros s. by rewrite Htracked.
  - intros e' s'. rewrite Hcaches, Htracked, Hin, Hsys.
    destruct (Hco e' s') as [Hiff Himp].
    case_decide as Hd.
    + subst e'. split; [split|]; try by intros ?%elem_of_nil.
      intros [Hx Hn]. exfalso. apply Hn. split; [by apply Hiff|done].
    + split; [split|].
      * intros Hs. split; [by apply Hiff|]. by intros [_ ?].
      * intros [Hx _]. by apply Hiff.
      * intros Hs. destruct (Himp Hs) as [Hin1 Hin2]. split; [|done].
        rewrite Hperm in Hin1. apply elem_of_cons in Hin1 as [|]; done.
  - intros _. split; [done|]. apply Hgone.
Qed.

Lemma same_structure_keeps w w' :
  same_structure w w' → duplicate_free w → coherent w →
  duplicate_free w' ∧ coherent w'.
Proof.
  intros Hs [Hde Hds Hdc Hdt] Hco. split; [split|].
  - by rewrite (ss_entities _ _ Hs).
  - by rewrite (ss_systems _ _ Hs).
  - intros e. by rewrite (ss_cache _ _ Hs).
  - intros s. by rewrite (ss_tracked _ _ Hs).
  - intros e s.
    rewrite (ss_cache _ _ Hs), (ss_tracked _ _ Hs),
      (ss_entities _ _ Hs), (ss_systems _ _ Hs).
    apply Hco.
Qed.

(** A tick with quiet callbacks keeps the lists coherent. *)
Lemma update_keeps upd fuel now w :
  quiet upd → (enough_fuel w ≤ fuel)%nat →
  duplicate_free w → coherent w →
  duplicate_free (world_of (update upd fuel now w))
  ∧ coherent (world_of (update upd fuel now w)).
Proof.
  intros Hq Hf Hdf Hco.
  destruct (update_quiet upd Hq fuel now w Hf) as (wl & -> & Hwl).
  destruct (same_structure_keeps _ _ Hwl Hdf Hco) as [[] Hco'].
  split; [by split|]. exact Hco'.
Qed.

Lemma run_ops_keeps l :
  ∀ w, duplicate_free w → coherent w → allowed_ops w l →
       duplicate_free (run_ops w l) ∧ coherent (run_ops w l).
Proof.
  induction l as [|o l IH]; intros w Hdf Hco Hal; [done|].
  destruct Hal as [Ho Hl]. unfold run_ops. cbn [foldl].
  apply IH; [| |done]; destruct o as [e|e|s|s]; cbn [run_op allowed] in *;
    try done.
  - by apply addEntity_keeps.
  - by apply removeEntity_keeps.
  - by apply addSystem_keeps.
  - by apply addEntity_keeps.
  - by apply removeEntity_keeps.
  - by apply addSystem_keeps.
Qed.

(** A client that registers nothing twice and removes no system leaves a
    registry whose lists hold no reference twice and whose caches mirror
    the tracked lists. *)
Lemma session_keeps options now l w :
  session options now l = Normal w →
  (∀ r, allowed_ops (new_World r) l) →
  duplicate_free w ∧ coherent w ∧ mirrored w.
Proof.
  unfold session, constructor.
  destruct (get_prop options "systemsFirst") as [v|]; [|done].
  intros [= <-] Hal.
  match goal with |- context [new_World ?r0] => set (r := r0) end.
  destruct (run_ops_keeps l (new_World r)
              (duplicate_free_new r eq_refl eq_refl)
              (coherent_new r eq_refl) (Hal r)) as [Hdf Hco].
  split; [done|]. split; [done|]. by apply coherent_mirrored.
Qed.

(** ** Lookup by id *)

Lemma find_first {A} (f : A → bool) (l : list A) :
  match List.find f l with
  | Some x => ∃ i, l !! i = Some x ∧ f x = true
                   ∧ ∀ j y, (j < i)%nat → l !! j = Some y → f y = false
  | None => ∀ y, y ∈ l → f y = false
  end.
Proof.
  induction l as [|a l IH]; simpl.
  - by intros y ?%elem_of_nil.
  - destruct (f a) eqn:Ha.
    + exists 0%nat. split; [done|]. split; [done|]. intros j y Hj. lia.
    + destruct (List.find f l) as [x|].
      * destruct IH as (i & Hi & Hx & Hbefore). exists (S i).
        split; [done|]. split; [done|].
        intros [|j] y Hj Hy; simpl in Hy; [by simplify_eq|].
        apply (Hbefore j); [lia|done].
      * intros y [->|Hy]%elem_of_cons; [done|by apply IH].
Qed.

(** X1: [getEntityById(id)] returns the first entity of the entity list
    whose id is [id], and [null] exactly when no registered entity has
    that id. *)
Theorem getEntityById_first id w :
  match getEntityById id w with
  | Some e =>
      ∃ i, entities (ecs w) !! i = Some e
           ∧ e_id (ent w e) = id
           ∧ ∀ j x, (j < i)%nat → entities (ecs w) !! j = Some x →
                    e_id (ent w x) ≠ id
  | None => ∀ x, x ∈ entities (ecs w) → e_id (ent w x) ≠ id
  end.
Proof.
  unfold getEntityById.
  pose proof (find_first (λ entity, e_id (ent w entity) =? id) (entities (ecs w))) as H.
  destruct (List.find _ _) as [e|].
  - destruct H as (i & Hi & He & Hbefore). exists i.
    split; [done|]. split; [by apply Z.eqb_eq|].
    intros j x Hj Hx. apply Z.eqb_neq. by apply (Hbefore j).
  - intros x Hx. apply Z.eqb_neq. by apply H.
Qed.

Lemma find_unique {A} (f : A → bool) (l : list A) x :
  x ∈ l → f x = true → (∀ y, y ∈ l → f y = true → y = x) →
  List.find f l = Some x.
Proof.
  intros Hx Hfx Huniq. pose proof (find_first f l) as H.
  destruct (List.find f l) as [y|].
  - destruct H as (i & Hi & Hy & _). f_equal. apply Huniq; [|done].
    apply list_elem_of_lookup. eauto.
  - rewrite (H x Hx) in Hfx. done.
Qed.

(** X2: when no two registered entities share an id, [getEntityById]
    of the id of a registered entity returns that entity. *)
Theorem getEntityById_registered e w :
  unique_ids w → e ∈ entities (ecs w) →
  getEntityById (e_id (ent w e)) w = Some e.
Proof.
  intros Hu He. unfold getEntityById. apply find_unique; [done|apply Z.eqb_refl|].
  intros y Hy Hid%Z.eqb_eq. by apply Hu.
Qed.

Lemma unique_ids_NoDup w :
  NoDup ((λ x, e_id (ent w x)) <$> entities (ecs w)) → unique_ids w.
Proof.
  unfold unique_ids. induction (entities (ecs w)) as [|a l IH]; simpl.
  - by intros _ x y ?%elem_of_nil.
  - intros [Ha Hl]%NoDup_cons x y Hx Hy Hid.
    apply elem_of_cons in Hx as [->|Hx]; apply elem_of_cons in Hy as [->|Hy].
    + done.
    + exfalso. apply Ha. rewrite Hid. apply list_elem_of_fmap. eauto.
    + exfalso. apply Ha. rewrite <- Hid. apply list_elem_of_fmap. eauto.
    + by apply IH.
Qed.

Lemma getEntityById_registered_witness :
  getEntityById (e_id (ent two_ids 1)) two_ids = Some 1%nat.
Proof.
  apply (getEntityById_registered 1 two_ids).
  - apply unique_ids_NoDup. decided.
  - decided.
Defined.

(** ** What no operation of the registry writes *)

Lemma with_cache_id o : with_cache (e_systems o) o = o.
Proof. by destruct o. Qed.

Lemma with_tracked_id o : with_tracked (s_entities o) o = o.
Proof. by destruct o. Qed.

Lemma same_data_refl w : same_data w w.
Proof.
  split; intros; [by rewrite with_cache_id|by rewrite with_tracked_id].
Qed.

Lemma same_data_trans w1 w2 w3 :
  same_data w1 w2 → same_data w2 w3 → same_data w1 w3.
Proof.
  intros [He12 Hs12] [He23 Hs23]. split.
  - intros x. rewrite (He23 x), (He12 x). done.
  - intros s. rewrite (Hs23 s), (Hs12 s). done.
Qed.

Lemma same_data_set_ecs r w w' : same_data w w' → same_data w (set_ecs r w').
Proof. done. Qed.

Lemma same_data_System_addEntity s e w : same_data w (System_addEntity s e w).
Proof.
  unfold System_addEntity. split.
  - intros x. change (ent (set_sys ?a ?o ?v) x) with (ent v x).
    rewrite ent_set_ent. case_decide; [by subst|by rewrite with_cache_id].
  - intros s'. rewrite sys_set_sys. case_decide; [by subst|by rewrite with_tracked_id].
Qed.

Lemma same_data_attach_matching s e w : same_data w (attach_matching s e w).
Proof.
  unfold attach_matching. destruct (System_test s e w).
  - apply same_data_System_addEntity.
  - apply same_data_refl.
Qed.

Lemma same_data_System_removeEntity s e w : same_data w (System_removeEntity s e w).
Proof.
  unfold System_removeEntity.
  destruct (indexOf e (s_entities (sys w s))); [|apply same_data_refl].
  split.
  - intros x. change (ent (set_sys ?a ?o ?v) x) with (ent v x).
    by rewrite with_cache_id.
  - intros s'. rewrite sys_set_sys. case_decide; [by subst|by rewrite with_tracked_id].
Qed.

Lemma same_data_foldl {A} (f : World → A → World) (l : list A) :
  (∀ w a, same_data w (f w a)) → ∀ w, same_data w (foldl f w l).
Proof.
  intros Hf. induction l as [|a l IH]; intros w; [apply same_data_refl|].
  simpl. eapply same_data_trans; [apply Hf|apply IH].
Qed.

Lemma same_data_Entity_dispose e w : same_data w (Entity_dispose e w).
Proof.
  unfold Entity_dispose.
  set (w1 := foldl _ _ _).
  assert (same_data w w1) as [He Hs].
  { apply (same_data_foldl (λ acc s, System_removeEntity s e acc)).
    intros. apply same_data_System_removeEntity. }
  split.
  - intros x. rewrite ent_set_ent. case_decide; [|done].
    subst x. rewrite (He e). done.
  - intros s. change (sys (set_ent ?a ?o ?v) s) with (sys v s). done.
Qed.

(** Apart from caches and tracked lists, [addEntity] writes the owner
    of the entity it adds and nothing else in the objects. *)
Lemma addEntity_data e w :
  (∀ x, ent (addEntity e w) x
        = with_cache (e_systems (ent (addEntity e w) x))
            (if decide (x = e) then set_owner (ent w e) else ent w x))
  ∧ (∀ s, sys (addEntity e w) s
          = with_tracked (s_entities (sys (addEntity e w) s)) (sys w s)).
Proof.
  unfold addEntity.
  set (w2 := set_ent e _ _).
  destruct (same_data_foldl (λ acc system, attach_matching system e acc)
              (systems (ecs w2))
              (λ v a, same_data_attach_matching a e v) w2) as [He Hs].
  split.
  - intros x. rewrite (He x). unfold w2. rewrite ent_set_ent.
    by case_decide; subst.
  - intros s. by rewrite (Hs s).
Qed.

Lemma addSystem_data s w : same_data w (addSystem s w).1.
Proof.
  unfold addSystem. cbn [System_initialize fst].
  eapply same_data_trans;
    [apply (same_data_set_ecs (push_system s (ecs w)) w w), same_data_refl|].
  apply (same_data_foldl (λ acc entity, attach_matching s entity acc)).
  intros. apply same_data_attach_matching.
Qed.

Lemma removeEntity_data e w : same_data w (removeEntity e w).1.1.
Proof.
  unfold removeEntity.
  destruct (indexOf e (entities (ecs w))); [|apply same_data_refl].
  cbn [fst]. apply same_data_set_ecs, same_data_Entity_dispose.
Qed.

Lemma removeSystem_store s w :
  ents (removeSystem s w).1.1 = ents w ∧ syss (removeSystem s w).1.1 = syss w.
Proof. unfold removeSystem. by destruct (indexOf s (systems (ecs w))). Qed.

Lemma e_id_same_data w w' x : same_data w w' → e_id (ent w' x) = e_id (ent w x).
Proof. intros [He _]. by rewrite (He x). Qed.

Lemma find_absent {A} (f : A → bool) (l : list A) :
  (∀ y, y ∈ l → f y = false) → List.find f l = None.
Proof.
  intros Hl. pose proof (find_first f l) as H.
  destruct (List.find f l) as [x|]; [|done].
  destruct H as (i & Hi & Hx & _).
  rewrite Hl in Hx; [done|]. apply list_elem_of_lookup. eauto.
Qed.

Lemma find_pointwise {A} (f g : A → bool) (l : list A) :
  (∀ x, f x = g x) → List.find f l = List.find g l.
Proof.
  intros Hfg. induction l as [|a l IH]; simpl; [done|].
  by rewrite Hfg, IH.
Qed.

Lemma find_snoc {A} (f : A → bool) (l : list A) a :
  List.find f (l ++ [a])
  = match List.find f l with
    | Some x => Some x
    | None => if f a then Some a else None
    end.
Proof.
  induction l as [|b l IH]; simpl; [done|].
  by destruct (f b).
Qed.

(** X3: [addEntity] does not disturb lookups by id, and makes the added
    entity findable: [getEntityById(id)] after [addEntity(e)] is what it
    was before if that was an entity, and otherwise [e] if [e.id] is
    [id]; so when no registered entity has the id of [e], looking that id
    up after [addEntity(e)] returns [e]. *)
Theorem getEntityById_addEntity id e w :
  getEntityById id (addEntity e w)
  = match getEntityById id w with
    | Some x => Some x
    | None => if e_id (ent w e) =? id then Some e else None
    end
  ∧ ((∀ x, x ∈ entities (ecs w) → e_id (ent w x) ≠ e_id (ent w e)) →
     getEntityById (e_id (ent w e)) (addEntity e w) = Some e).
Proof.
  assert (∀ id',
    getEntityById id' (addEntity e w)
    = match getEntityById id' w with
      | Some x => Some x
      | None => if e_id (ent w e) =? id' then Some e else None
      end) as Hgen.
  { intros id'. unfold getEntityById.
    rewrite (proj1 (addEntity_lists e w)).
    rewrite (find_pointwise _ (λ entity, e_id (ent w entity) =? id')).
    - apply (find_snoc (λ entity, e_id (ent w entity) =? id')).
    - intros x. rewrite (proj1 (addEntity_data e w) x).
      by case_decide; subst. }
  split; [apply Hgen|].
  intros Hfresh. rewrite Hgen. unfold getEntityById.
  rewrite find_absent, Z.eqb_refl; [done|].
  intros y Hy. apply Z.eqb_neq. by apply Hfresh.
Qed.

Lemma getEntityById_addEntity_witness :
  getEntityById (e_id (ent (scenario_store entities_first) 1))
                (addEntity 1 (scenario_store entities_first))
  = Some 1%nat.
Proof.
  apply (proj2 (getEntityById_addEntity 0 1 (scenario_store entities_first))).
  intros x Hx. vm_compute in Hx. by apply elem_of_nil in Hx.
Defined.

(** X4: in a registry whose entity list holds no entity twice and no two
    entities with the same id, [removeEntity(e)] makes the id of [e]
    unknown to [getEntityById] and leaves every other registered entity
    findable by its id, although the removal reorders the list. *)
Theorem getEntityById_removeEntity e w :
  NoDup (entities (ecs w)) → unique_ids w → e ∈ entities (ecs w) →
  getEntityById (e_id (ent w e)) (removeEntity e w).1.1 = None
  ∧ ∀ x, x ∈ entities (ecs w) → x ≠ e →
         getEntityById (e_id (ent w x)) (removeEntity e w).1.1 = Some x.
Proof.
  intros Hnd Hu He.
  destruct (removeEntity_found e w He) as (index & Hlook & Hrun).
  destruct (fastSplice_spec _ _ _ Hlook) as (_ & _ & _ & Hperm).
  assert (entities (ecs (removeEntity e w).1.1)
          = fastSplice (entities (ecs w)) index) as Hlist by (by rewrite Hrun).
  rewrite <- Hlist in Hperm. clear Hlist Hrun.
  pose proof (removeEntity_data e w) as Hdata.
  set (w' := (removeEntity e w).1.1) in *.
  rewrite Hperm in Hnd. apply NoDup_cons in Hnd as [Hnot Hnd].
  assert (∀ y, y ∈ entities (ecs w') → y ∈ entities (ecs w)) as Hsub.
  { intros y Hy. rewrite Hperm. by right. }
  split.
  - unfold getEntityById. apply find_absent. intros y Hy.
    apply Z.eqb_neq. rewrite (e_id_same_data w w' y Hdata). intros Hid.
    assert (y = e) as -> by (apply Hu; auto). done.
  - intros x Hx Hne. unfold getEntityById. apply find_unique.
    + rewrite Hperm in Hx. apply elem_of_cons in Hx as [|]; done.
    + rewrite (e_id_same_data w w' x Hdata). apply Z.eqb_refl.
    + intros y Hy Hid%Z.eqb_eq. rewrite (e_id_same_data w w' y Hdata) in Hid.
      apply Hu; auto.
Qed.

Lemma getEntityById_removeEntity_witness :
  getEntityById (e_id (ent two_ids 0)) (removeEntity 0 two_ids).1.1 = None
  ∧ ∀ x, x ∈ entities (ecs two_ids) → x ≠ 0%nat →
         getEntityById (e_id (ent two_ids x)) (removeEntity 0 two_ids).1.1 = Some x.
Proof.
  apply (getEntityById_removeEntity 0 two_ids).
  - decided.
  - apply unique_ids_NoDup. decided.
  - decided.
Defined.

(** ** Registering and removing a system *)

(** X5: [addSystem(s)] calls [initialize] once and nothing else, appends
    [s] to the system list, leaves the entity list, the counter and the
    clock alone, and appends to the tracked list of [s] the registered
    entities that pass its test, in the order of the entity list, and
    [s] to the membership cache of each of them; no other tracked list
    changes, and no id, component, frequency or enable flag is
    written. *)
Theorem addSystem_registers s w :
  (addSystem s w).2 = [EvInitialize s]
  ∧ systems (ecs (addSystem s w).1) = systems (ecs w) ++ [s]
  ∧ entities (ecs (addSystem s w).1) = entities (ecs w)
  ∧ updateCounter (ecs (addSystem s w).1) = updateCounter (ecs w)
  ∧ lastUpdate (ecs (addSystem s w).1) = lastUpdate (ecs w)
  ∧ s_entities (sys (addSystem s w).1 s)
    = s_entities (sys w s)
      ++ List.filter (λ e, System_test s e w) (entities (ecs w))
  ∧ (∀ s', s' ≠ s → s_entities (sys (addSystem s w).1 s') = s_entities (sys w s'))
  ∧ (∀ e, e_systems (ent (addSystem s w).1 e)
          = e_systems (ent w e)
            ++ if System_test s e w
               then replicate (occurrences e (entities (ecs w))) s else [])
  ∧ same_data w (addSystem s w).1.
Proof.
  destruct (addSystem_lists s w) as (HS & HE & HT & HC).
  split_and!; try done.
  - by rewrite ecs_addSystem.
  - by rewrite ecs_addSystem.
  - by rewrite HT, decide_True.
  - intros s' Hne. by rewrite HT, decide_False, app_nil_r.
  - apply addSystem_data.
Qed.



Lemma max_list_subseteq (l k : list nat) :
  (∀ x, x ∈ l → x ∈ k) → (max_list l ≤ max_list k)%nat.
Proof.
  induction l as [|a l IH]; intros Hsub; simpl; [lia|].
  apply Nat.max_lub.
  - apply max_list_elem_of_le, Hsub. by left.
  - apply IH. intros x Hx. apply Hsub. by right.
Qed.

Lemma removeSystem_view s w :
  entities (ecs (removeSystem s w).1.1) = entities (ecs w)
  ∧ systems (ecs (removeSystem s w).1.1) = without s (systems (ecs w))
  ∧ updateCounter (ecs (removeSystem s w).1.1) = updateCounter (ecs w)
  ∧ lastUpdate (ecs (removeSystem s w).1.1) = lastUpdate (ecs w)
  ∧ systemsFirst (ecs (removeSystem s w).1.1) = systemsFirst (ecs w)
  ∧ (∀ e, ent (removeSystem s w).1.1 e = ent w e)
  ∧ (∀ s', sys (removeSystem s w).1.1 s' = sys w s').
Proof.
  unfold removeSystem, without.
  by destruct (indexOf s (systems (ecs w))).
Qed.

Lemma without_spec x l :
  (length (without x l) ≤ length l)%nat
  ∧ (∀ y, y ∈ without x l → y ∈ l)
  ∧ (NoDup l → x ∉ without x l).
Proof.
  unfold without. destruct (indexOf x l) as [index|] eqn:Hi.
  - destruct (indexOf_Some _ _ _ Hi) as [Hlook _].
    destruct (fastSplice_spec _ _ _ Hlook) as (Hlen & _ & _ & Hperm).
    set (l' := fastSplice l index) in *.
    split; [lia|]. split.
    + intros y Hy. rewrite Hperm. by right.
    + rewrite Hperm. by intros [? _]%NoDup_cons.
  - apply indexOf_None in Hi. done.
Qed.

Lemma enough_fuel_removeSystem s w :
  (enough_fuel (removeSystem s w).1.1 ≤ enough_fuel w)%nat.
Proof.
  destruct (removeSystem_view s w) as (HE & HS & _ & _ & _ & He & Hs).
  destruct (without_spec s (systems (ecs w))) as (Hlen & Hsub & _).
  unfold enough_fuel. rewrite HE, HS.
  assert (max_list ((λ e, length (e_systems (ent (removeSystem s w).1.1 e)))
                      <$> entities (ecs w))
          = max_list ((λ e, length (e_systems (ent w e))) <$> entities (ecs w))) as ->.
  { f_equal. apply list_fmap_ext. intros _ e _. by rewrite He. }
  match goal with
  | |- (_ + _ + _ + ?a + 2 ≤ _ + _ + _ + ?b + 2)%nat => assert (a ≤ b)%nat
  end.
  { apply max_list_subseteq. intros n (s' & -> & Hs')%list_elem_of_fmap.
    apply list_elem_of_fmap. exists s'. rewrite Hs. auto. }
  unfold SysRef, EntRef in *. lia.
Qed.

Lemma skipped_removeSystem s w s' :
  skipped (removeSystem s w).1.1 s' = skipped w s'.
Proof.
  destruct (removeSystem_view s w) as (_ & _ & Hc & _ & _ & _ & Hs).
  unfold skipped. by rewrite Hc, Hs.
Qed.

(** X7: under the entities-first traversal [removeSystem(s)] does not
    stop the updates of [s]: with callbacks that mutate nothing, the
    [update()] after the removal makes the very calls it would have made
    without it. *)
Theorem removeSystem_entities_first upd fuel now s w :
  quiet upd → (enough_fuel w ≤ fuel)%nat →
  truthy (systemsFirst (ecs w)) = false →
  (∃ w', update upd fuel now (removeSystem s w).1.1
         = Done w' (dispatch_entities w (now - lastUpdate (ecs w))))
  ∧ trace_of (update upd fuel now (removeSystem s w).1.1)
    = trace_of (update upd fuel now w).
Proof.
  intros Hq Hf Hmode.
  pose proof (enough_fuel_removeSystem s w) as Hle.
  destruct (removeSystem_view s w) as (HE & _ & _ & HL & HM & He & _).
  destruct (update_quiet upd Hq fuel now (removeSystem s w).1.1) as (w1 & H1 & _); [lia|].
  destruct (update_quiet upd Hq fuel now w Hf) as (w2 & H2 & _).
  assert (dispatch (removeSystem s w).1.1 (now - lastUpdate (ecs (removeSystem s w).1.1))
          = dispatch_entities w (now - lastUpdate (ecs w))) as Hd.
  { unfold dispatch. rewrite HM, Hmode, HL. unfold dispatch_entities. rewrite HE.
    apply list_bind_ext; [|done]. intros e. rewrite He.
    apply list_bind_ext; [|done]. intros s'. by rewrite skipped_removeSystem. }
  rewrite H1, H2, Hd. unfold dispatch. rewrite Hmode. eauto.
Qed.

Lemma removeSystem_entities_first_witness :
  (∃ w', update idle 10 5 (removeSystem 0 two_ids).1.1
         = Done w' (dispatch_entities two_ids (5 - lastUpdate (ecs two_ids))))
  ∧ trace_of (update idle 10 5 (removeSystem 0 two_ids).1.1)
    = trace_of (update idle 10 5 two_ids).
Proof.
  apply (removeSystem_entities_first idle 10 5 0 two_ids).
  - apply quiet_idle.
  - vm_compute. lia.
  - reflexivity.
Defined.

(** X8: under the systems-first traversal, in a registry whose system
    list holds no system twice, [removeSystem(s)] does stop the updates
    of [s]: with callbacks that mutate nothing, the [update()] after the
    removal runs to its end without a call of [s.update], and calls every
    other system on every entity as often as before. *)
Theorem removeSystem_systems_first upd fuel now s w :
  quiet upd → (enough_fuel w ≤ fuel)%nat →
  truthy (systemsFirst (ecs w)) = true →
  NoDup (systems (ecs w)) →
  ∃ w' tr,
    update upd fuel now (removeSystem s w).1.1 = Done w' tr
    ∧ (∀ e el, EvUpdate s e el ∉ tr)
    ∧ ∀ s' e, s' ≠ s →
        invocations s' e tr = invocations s' e (trace_of (update upd fuel now w)).
Proof.
  intros Hq Hf Hmode Hnd.
  pose proof (enough_fuel_removeSystem s w) as Hle.
  destruct (removeSystem_view s w) as (HE & HS & _ & HL & HM & _ & Hs).
  destruct (without_spec s (systems (ecs w))) as (_ & Hsub & Hnot).
  destruct (update_quiet upd Hq fuel now (removeSystem s w).1.1) as (w1 & H1 & _); [lia|].
  destruct (update_quiet upd Hq fuel now w Hf) as (w2 & H2 & _).
  eexists _, _. split; [exact H1|].
  unfold dispatch in *. rewrite HM, Hmode in *. split.
  - intros e el (Hin & _)%elem_of_dispatch_systems.
    rewrite HS in Hin. by apply Hnot.
  - intros s' e Hne. rewrite H2. cbn [trace_of].
    rewrite !invocations_dispatch_systems, skipped_removeSystem, HS, Hs.
    destruct (skipped w s'); [done|]. f_equal.
    unfold without. destruct (indexOf s (systems (ecs w))) as [index|] eqn:Hi; [|done].
    destruct (indexOf_Some _ _ _ Hi) as [Hlook _].
    destruct (fastSplice_spec _ _ _ Hlook) as (_ & _ & _ & Hperm).
    set (l' := fastSplice (systems (ecs w)) index) in *.
    destruct (decide (s' ∈ l')) as [Hin|Hin].
    + rewrite (occurrences_NoDup s' (systems (ecs w)))
        by (done || (rewrite Hperm; by right)).
      rewrite Hperm in Hnd. apply NoDup_cons in Hnd as [_ Hnd].
      by rewrite occurrences_NoDup.
    + assert (s' ∉ systems (ecs w)) as Hout.
      { rewrite Hperm. intros [|]%elem_of_cons; done. }
      etrans; [by apply occurrences_notin|].
      symmetry. by apply occurrences_notin.
Qed.

Lemma removeSystem_systems_first_witness :
  ∃ w' tr,
    update idle 10 5 (removeSystem 0 two_systems).1.1 = Done w' tr
    ∧ (∀ e el, EvUpdate 0 e el ∉ tr)
    ∧ ∀ s' e, s' ≠ 0%nat →
        invocations s' e tr = invocations s' e (trace_of (update idle 10 5 two_systems)).
Proof.
  apply (removeSystem_systems_first idle 10 5 0 two_systems).
  - apply quiet_idle.
  - vm_compute. lia.
  - reflexivity.
  - decided.
Defined.

(** ** Successive ticks *)

Lemma update_elapsed upd fuel now w s e el :
  EvUpdate s e el ∈ trace_of (update upd fuel now w) →
  el = now - lastUpdate (ecs w).
Proof.
  intros Hin. rewrite trace_update_traversal in Hin.
  pose proof (traversal_inv upd (λ _, True)
                (λ ev, ∀ s e el, ev = EvUpdate s e el → el = now - lastUpdate (ecs w))
                (now - lastUpdate (ecs w))) as H.
  eapply Forall_forall in H; [by eapply H| | |exact I|exact Hin].
  - done.
  - by intros s' e' w0 _ _ s0 e0 el0 [= _ _ <-].
Qed.

Lemma update_done_clock upd fuel now w w' tr :
  update upd fuel now w = Done w' tr → lastUpdate (ecs w') = now.
Proof.
  rewrite update_traversal.
  destruct (traversal upd fuel (now - lastUpdate (ecs w)) w); [|done].
  by intros [= <- _].
Qed.

(** X9: an [update()] that runs to its end stores its clock reading in
    [lastUpdate] whatever the callbacks did, so the next [update()],
    with any registrations and removals in between, hands every system
    the time between the two calls. *)
Theorem consecutive_elapsed upd fuel1 fuel2 now1 now2 l w w1 tr1 :
  update upd fuel1 now1 w = Done w1 tr1 →
  lastUpdate (ecs w1) = now1
  ∧ ∀ s e el,
      EvUpdate s e el ∈ trace_of (update upd fuel2 now2 (run_ops w1 l)) →
      el = now2 - now1.
Proof.
  intros Hrun. pose proof (update_done_clock _ _ _ _ _ _ Hrun) as Hclock.
  split; [done|]. intros s e el Hin%update_elapsed.
  destruct (run_ops_clock l w1) as (Hlast & _ & _). by rewrite Hlast, Hclock in Hin.
Qed.

Lemma consecutive_elapsed_witness :
  lastUpdate (ecs (set_ecs (tick 150 (ecs constructed_at_100)) constructed_at_100)) = 150
  ∧ ∀ s e el,
      EvUpdate s e el
      ∈ trace_of (update idle 10 175
                    (run_ops (set_ecs (tick 150 (ecs constructed_at_100)) constructed_at_100)
                             [AddEntity 1])) →
      el = 175 - 150.
Proof.
  apply (consecutive_elapsed idle 10 10 150 175 [AddEntity 1] constructed_at_100
           (set_ecs (tick 150 (ecs constructed_at_100)) constructed_at_100)
           [EvUpdate 0 0 50]).
  reflexivity.
Defined.




(** ** Edge cases of the gate *)

Lemma rem_positive_opp c n : rem_positive c (- n) = rem_positive c n.
Proof.
  unfold rem_positive. destruct (Z.eqb_spec n 0) as [->|Hn]; [done|].
  destruct (Z.eqb_spec (- n) 0); [lia|]. by rewrite Z.rem_opp_r.
Qed.

(** X11: the gate [counter % frequency > 0] has two edge cases.  A
    frequency of 0 never skips: the remainder is NaN and the comparison
    false, so an enabled system of frequency 0 is called on every tick.
    A negative frequency gates like its absolute value.  In a registry
    whose lists hold no reference twice and whose caches mirror the
    tracked lists, with a counter that counts ticks and callbacks that
    mutate nothing, an enabled registered system [s] is called on a
    tracked entity once if its frequency is 0 or divides the counter, and
    not at all otherwise. *)
Theorem frequency_edge_cases upd fuel now w s e :
  quiet upd → duplicate_free w → mirrored w →
  0 ≤ updateCounter (ecs w) →
  s ∈ systems (ecs w) → e ∈ s_entities (sys w s) →
  s_enable (sys w s) = true →
  (enough_fuel w ≤ fuel)%nat →
  ∃ w' tr,
    update upd fuel now w = Done w' tr
    ∧ invocations s e tr
      = if decide (s_frequency (sys w s) = 0
                   ∨ updateCounter (ecs w) mod Z.abs (s_frequency (sys w s)) = 0)
        then 1%nat else 0%nat.
Proof.
  intros Hq Hdf Hm Hc Hs He Hen Hf.
  destruct (update_quiet upd Hq fuel now w Hf) as (wl & Hrun & _).
  eexists _, _. split; [exact Hrun|].
  rewrite invocations_dispatch_wf by done.
  unfold skipped. rewrite Hen, orb_false_r.
  destruct (Z.lt_trichotomy (s_frequency (sys w s)) 0) as [Hn|[Hn|Hn]].
  - rewrite <- (Z.opp_involutive (s_frequency (sys w s))) at 1.
    rewrite rem_positive_opp, rem_positive_mod by lia.
    rewrite Z.abs_neq by lia.
    case_bool_decide; case_decide; try done; [lia|tauto].
  - rewrite Hn. unfold rem_positive. rewrite Z.eqb_refl.
    case_decide as Hd; [done|]. exfalso. apply Hd. by left.
  - rewrite rem_positive_mod by lia. rewrite Z.abs_eq by lia.
    case_bool_decide; case_decide; try done; [lia|tauto].
Qed.

Lemma frequency_edge_cases_witness :
  ∃ w' tr,
    update idle 10 5 scenario_zero = Done w' tr
    ∧ invocations 1 1 tr
      = if decide (s_frequency (sys scenario_zero 1) = 0
                   ∨ updateCounter (ecs scenario_zero)
                     mod Z.abs (s_frequency (sys scenario_zero 1)) = 0)
        then 1%nat else 0%nat.
Proof.
  apply (frequency_edge_cases idle 10 5 scenario_zero 1 1).
  - apply quiet_idle.
  - apply duplicate_free_b_sound. vm_compute. reflexivity.
  - apply mirrored_b_sound. vm_compute. reflexivity.
  - vm_compute. discriminate.
  - decided.
  - decided.
  - reflexivity.
  - vm_compute. lia.
Defined.

(** The system of frequency 0 is called at counter 7 and at counter 8. *)
Example frequency_zero_run :
  updateCounter (ecs scenario_zero) = 7
  ∧ (ticks idle 10 0 2 scenario_zero).2 = [[EvUpdate 1 1 1]; [EvUpdate 1 1 1]].
Proof. vm_compute. done. Qed.

(** ** The invariant of a well-behaved client *)

(** X12: a client that never adds an entity or a system that is already
    registered and never removes a system keeps the registry
    well-formed through every [addEntity], [addSystem] and
    [removeEntity] and through every tick whose callbacks mutate
    nothing: no list holds a reference twice, a cache lists exactly the
    systems that track the entity, and only registered entities and
    systems are attached. *)
Theorem allowed_client_invariant upd fuel now l w :
  duplicate_free w → coherent w → allowed_ops w l →
  quiet upd → (enough_fuel (run_ops w l) ≤ fuel)%nat →
  duplicate_free (run_ops w l) ∧ coherent (run_ops w l)
  ∧ duplicate_free (world_of (update upd fuel now (run_ops w l)))
  ∧ coherent (world_of (update upd fuel now (run_ops w l)))
  ∧ mirrored (world_of (update upd fuel now (run_ops w l))).
Proof.
  intros Hdf Hco Hal Hq Hf.
  destruct (run_ops_keeps l w Hdf Hco Hal) as [Hdf' Hco'].
  destruct (update_keeps upd fuel now _ Hq Hf Hdf' Hco') as [Hdf'' Hco''].
  split_and!; try done. by apply coherent_mirrored.
Qed.

Lemma allowed_client_invariant_witness :
  duplicate_free (run_ops (new_World entities_first)
                    [AddSystem 0; AddEntity 0; AddEntity 1; RemoveEntity 0; AddSystem 1])
  ∧ coherent (run_ops (new_World entities_first)
                [AddSystem 0; AddEntity 0; AddEntity 1; RemoveEntity 0; AddSystem 1])
  ∧ duplicate_free (world_of (update idle 10 5
                      (run_ops (new_World entities_first)
                         [AddSystem 0; AddEntity 0; AddEntity 1; RemoveEntity 0; AddSystem 1])))
  ∧ coherent (world_of (update idle 10 5
                (run_ops (new_World entities_first)
                   [AddSystem 0; AddEntity 0; AddEntity 1; RemoveEntity 0; AddSystem 1])))
  ∧ mirrored (world_of (update idle 10 5
                (run_ops (new_World entities_first)
                   [AddSystem 0; AddEntity 0; AddEntity 1; RemoveEntity 0; AddSystem 1]))).
Proof.
  apply (allowed_client_invariant idle 10 5
           [AddSystem 0; AddEntity 0; AddEntity 1; RemoveEntity 0; AddSystem 1]
           (new_World entities_first)).
  - by apply duplicate_free_new.
  - by apply coherent_new.
  - cbn [allowed_ops allowed]. split_and!; try done; decided.
  - apply quiet_idle.
  - vm_compute. lia.
Defined.

(** X13: in a registry whose entity list holds no entity twice,
    [removeEntity] is idempotent: after [removeEntity(e)] the entity is
    no longer in the list, and a second [removeEntity(e)] calls no hook,
    changes nothing and returns [e]. *)
Theorem removeEntity_twice e w :
  NoDup (entities (ecs w)) →
  (e ∉ entities (ecs (removeEntity e w).1.1))
  ∧ removeEntity e (removeEntity e w).1.1 = ((removeEntity e w).1.1, [], VRef e).
Proof.
  intros Hnd.
  assert (e ∉ entities (ecs (removeEntity e w).1.1)) as Hgone.
  { destruct (decide (e ∈ entities (ecs w))) as [He|He].
    - destruct (removeEntity_found e w He) as (index & Hlook & Hrun).
      destruct (fastSplice_spec _ _ _ Hlook) as (_ & _ & _ & Hperm).
      rewrite Hrun. cbn [fst set_ecs ecs with_entities entities].
      set (l' := fastSplice (entities (ecs w)) index) in *.
      rewrite Hperm in Hnd. by apply NoDup_cons in Hnd as [? _].
    - by rewrite (proj2 (proj2 (removeEntity_absent_store e w He))). }
  split; [done|].
  destruct (removeEntity_absent_store e _ Hgone) as (Hr & Hev & Hw).
  destruct (removeEntity e (removeEntity e w).1.1) as [[w' evs] r].
  simpl in *. by subst.
Qed.

Lemma removeEntity_twice_witness :
  (0%nat ∉ entities (ecs (removeEntity 0 two_ids).1.1))
  ∧ removeEntity 0 (removeEntity 0 two_ids).1.1
    = ((removeEntity 0 two_ids).1.1, [], VRef 0).
Proof. apply (removeEntity_twice 0 two_ids). decided. Defined.

(** ** The traversal mode *)



(** ** What a registration attaches and what it leaves alone *)

(** X15: [addEntity(e)] makes the registry the owner of [e] and
    attaches [e] to exactly the registered systems whose test it
    passes: afterwards a pair is attached if and only if it was
    attached before or it is [e] with such a system.  Ids and
    components, the owners of the other entities, the predicates,
    frequencies and enable flags, the tick counter and the clock are
    not written. *)
Theorem addEntity_attaches e w :
  e_ecs (ent (addEntity e w) e) = true
  ∧ (∀ e' s',
       (s' ∈ e_systems (ent (addEntity e w) e')
        ↔ s' ∈ e_systems (ent w e')
          ∨ (e' = e ∧ s' ∈ systems (ecs w) ∧ System_test s' e w = true))
       ∧ (e' ∈ s_entities (sys (addEntity e w) s')
          ↔ e' ∈ s_entities (sys w s')
            ∨ (e' = e ∧ s' ∈ systems (ecs w) ∧ System_test s' e w = true)))
  ∧ (∀ x, e_id (ent (addEntity e w) x) = e_id (ent w x)
          ∧ e_components (ent (addEntity e w) x) = e_components (ent w x)
          ∧ (x ≠ e → e_ecs (ent (addEntity e w) x) = e_ecs (ent w x)))
  ∧ (∀ s, s_required (sys (addEntity e w) s) = s_required (sys w s)
          ∧ s_frequency (sys (addEntity e w) s) = s_frequency (sys w s)
          ∧ s_enable (sys (addEntity e w) s) = s_enable (sys w s))
  ∧ updateCounter (ecs (addEntity e w)) = updateCounter (ecs w)
  ∧ lastUpdate (ecs (addEntity e w)) = lastUpdate (ecs w).
Proof.
  destruct (addEntity_data e w) as [He Hs].
  split_and!.
  - rewrite (He e), decide_True by done. done.
  - intros e' s'. apply addEntity_membership.
  - intros x. rewrite (He x). case_decide as Hd; [subst x|]; simpl; split_and!; done.
  - intros s. rewrite (Hs s). done.
  - by rewrite ecs_addEntity.
  - by rewrite ecs_addEntity.
Qed.

Lemma run_op_gating w o s :
  s_frequency (sys (run_op w o) s) = s_frequency (sys w s)
  ∧ s_enable (sys (run_op w o) s) = s_enable (sys w s).
Proof.
  destruct o as [e|e|s0|s0]; cbn [run_op].
  - rewrite (proj2 (addEntity_data e w) s). done.
  - rewrite (proj2 (removeEntity_data e w) s). done.
  - rewrite (proj2 (addSystem_data s0 w) s). done.
  - destruct (removeSystem_view s0 w) as (_ & _ & _ & _ & _ & _ & Hs).
    by rewrite Hs.
Qed.

(** X16: no registration and no removal changes when a system is due:
    [addEntity], [removeEntity], [addSystem] and [removeSystem], in any
    number and order, leave the tick counter, the clock, the traversal
    mode and every system's frequency and enable flag as they are, and
    so the outcome of the gate of every system. *)
Theorem registrations_keep_gating l :
  ∀ w,
    updateCounter (ecs (run_ops w l)) = updateCounter (ecs w)
    ∧ lastUpdate (ecs (run_ops w l)) = lastUpdate (ecs w)
    ∧ systemsFirst (ecs (run_ops w l)) = systemsFirst (ecs w)
    ∧ ∀ s, s_frequency (sys (run_ops w l) s) = s_frequency (sys w s)
           ∧ s_enable (sys (run_ops w l) s) = s_enable (sys w s)
           ∧ skipped (run_ops w l) s = skipped w s.
Proof.
  induction l as [|o l IH]; intros w; [done|].
  unfold run_ops in *. cbn [foldl].
  destruct (IH (run_op w o)) as (Hc & Hl & Hm & Hs).
  destruct (run_op_clock w o) as (Hl' & Hc' & Hm').
  rewrite Hc, Hl, Hm, Hc', Hl', Hm'. split_and!; try done.
  intros s. destruct (Hs s) as (Hf & He & Hsk).
  destruct (run_op_gating w o s) as [Hf' He'].
  rewrite Hf, He, Hsk, Hf', He'. split_and!; try done.
  unfold skipped. by rewrite Hc', Hf', He'.
Qed.

(** ** Adding an entity and removing it again *)

Lemma indexOf_snoc_fresh x l : x ∉ l → indexOf x (l ++ [x]) = Some (length l).
Proof.
  induction l as [|y l IH]; intros Hx; simpl.
  - by rewrite Nat.eqb_refl.
  - apply not_elem_of_cons in Hx as [Hne Hx].
    destruct (Nat.eqb_spec y x) as [->|_]; [done|].
    by rewrite IH.
Qed.

Lemma without_snoc_fresh x l : x ∉ l → without x (l ++ [x]) = l.
Proof.
  intros Hx. unfold without. rewrite indexOf_snoc_fresh by done.
  rewrite fastSplice_snoc by lia. by rewrite decide_True.
Qed.

Lemma without_absent x l : x ∉ l → without x l = l.
Proof.
  intros Hx. unfold without. by rewrite (proj2 (indexOf_None x l) Hx).
Qed.

Lemma tracked_System_removeEntity s e w s' :
  s_entities (sys (System_removeEntity s e w) s')
  = if decide (s' = s) then without e (s_entities (sys w s')) else s_entities (sys w s').
Proof.
  unfold System_removeEntity, without.
  case_decide as Hd.
  - subst s'. destruct (indexOf e (s_entities (sys w s))); [|done].
    by rewrite sys_set_sys, decide_True.
  - destruct (indexOf e (s_entities (sys w s))); [|done].
    by rewrite sys_set_sys, decide_False.
Qed.

Lemma ents_System_removeEntity s e w : ents (System_removeEntity s e w) = ents w.
Proof.
  unfold System_removeEntity. by destruct (indexOf e (s_entities (sys w s))).
Qed.

(** The loop of [dispose] over a cache without duplicates takes one
    occurrence of the entity out of the tracked list of every system of
    the cache. *)
Lemma detach_tracked e l :
  NoDup l →
  ∀ w,
    ents (foldl (fun acc s => System_removeEntity s e acc) w l) = ents w
    ∧ ∀ s', s_entities (sys (foldl (fun acc s => System_removeEntity s e acc) w l) s')
            = if decide (s' ∈ l) then without e (s_entities (sys w s'))
              else s_entities (sys w s').
Proof.
  induction 1 as [|a l Ha Hl IH]; intros w; cbn [foldl].
  - split; [done|]. intros s'. by rewrite decide_False by apply not_elem_of_nil.
  - destruct (IH (System_removeEntity a e w)) as [Hents Htr].
    split; [by rewrite Hents, ents_System_removeEntity|].
    intros s'. rewrite Htr, !tracked_System_removeEntity.
    destruct (decide (s' = a)) as [->|Hne].
    + rewrite decide_False by done. rewrite decide_True by (by left). done.
    + destruct (decide (s' ∈ l)) as [Hin|Hin].
      * rewrite decide_True by (by right). done.
      * rewrite decide_False; [done|]. intros [|]%elem_of_cons; done.
Qed.

(** X17: in a well-formed registry (no reference twice in a list,
    caches coherent with tracked lists), adding an entity that is not
    registered and removing it again restores the registry: the entity
    list, the system list, the counter and the clock, every system with
    its tracked list, and every other entity are as before; the entity
    itself is as before except that it keeps the registry as its owner.
    [dispose] is called once. *)
Theorem addEntity_removeEntity e w :
  duplicate_free w → coherent w → e ∉ entities (ecs w) →
  ecs (removeEntity e (addEntity e w)).1.1 = ecs w
  ∧ (∀ s, sys (removeEntity e (addEntity e w)).1.1 s = sys w s)
  ∧ (∀ x, x ≠ e → ent (removeEntity e (addEntity e w)).1.1 x = ent w x)
  ∧ ent (removeEntity e (addEntity e w)).1.1 e = set_owner (ent w e)
  ∧ (removeEntity e (addEntity e w)).1.2 = [EvEntityDispose e]
  ∧ (removeEntity e (addEntity e w)).2 = VRef e.
Proof.
  intros [Hde Hds Hdc Hdt] Hco He.
  assert (e_systems (ent w e) = []) as Hcache.
  { destruct (e_systems (ent w e)) as [|s l] eqn:Hl; [done|].
    destruct (proj2 (Hco e s)); [rewrite Hl; by left|done]. }
  assert (∀ s, e ∉ s_entities (sys w s)) as Hnt.
  { intros s Hs. apply (Hco e s) in Hs. rewrite Hcache in Hs.
    by apply elem_of_nil in Hs. }
  destruct (addEntity_lists e w) as (HE & HS & HT & HC).
  destruct (addEntity_data e w) as [Hent Hsys].
  set (w1 := addEntity e w) in *.
  assert (indexOf e (entities (ecs w1)) = Some (length (entities (ecs w)))) as Hi.
  { rewrite HE. by apply indexOf_snoc_fresh. }
  assert (NoDup (e_systems (ent w1 e))) as Hnd.
  { rewrite HC, decide_True, Hcache by done. by apply NoDup_List_filter. }
  destruct (detach_tracked e (e_systems (ent w1 e)) Hnd w1) as [Hents Htr].
  unfold removeEntity. rewrite Hi.
  cbn [fst snd set_ecs ecs].
  change (ent (set_ecs ?r ?v)) with (ent v).
  change (sys (set_ecs ?r ?v)) with (sys v).
  rewrite ecs_Entity_dispose.
  split_and!; try done.
  - rewrite HE, fastSplice_snoc, decide_True by lia.
    unfold w1. rewrite ecs_addEntity. by destruct (ecs w).
  - intros s. unfold Entity_dispose.
    change (sys (set_ent ?a ?o ?v) s) with (sys v s).
    destruct (same_data_foldl (λ acc s0, System_removeEntity s0 e acc)
                (e_systems (ent w1 e))
                (λ v a, same_data_System_removeEntity a e v) w1) as [_ Hs1].
    rewrite (Hs1 s), (Hsys s).
    transitivity (with_tracked (s_entities (sys w s)) (sys w s));
      [|apply with_tracked_id].
    unfold with_tracked. simpl. f_equal.
    rewrite Htr, HT.
    rewrite HC, (decide_True (P := e = e)), Hcache by done. simpl.
    destruct (System_test s e w) eqn:Htest.
    + destruct (decide (s ∈ systems (ecs w))) as [Hin|Hin].
      * rewrite decide_True by (by apply elem_of_List_filter).
        rewrite occurrences_NoDup by done. by apply without_snoc_fresh.
      * rewrite decide_False by (by intros [? _]%elem_of_List_filter).
        rewrite occurrences_notin by done. simpl. by rewrite app_nil_r.
    + rewrite decide_False by (intros [_ ?]%elem_of_List_filter; congruence).
      by rewrite app_nil_r.
  - intros x Hne. unfold Entity_dispose. rewrite ent_set_ent, decide_False by done.
    rewrite (ent_ents _ w1 x Hents), (Hent x), decide_False by done.
    rewrite HC, decide_False, app_nil_r by done. apply with_cache_id.
  - unfold Entity_dispose. rewrite ent_set_ent, decide_True by done.
    rewrite (ent_ents _ w1 e Hents), (Hent e), decide_True by done.
    unfold set_owner, with_cache. simpl. by rewrite Hcache.
Qed.

Lemma coherent_b_sound w : coherent_b w = true → coherent w.
Proof.
  unfold coherent_b. rewrite andb_true_iff, !bool_decide_eq_true.
  intros [H1 H2] e s.
  assert (s ∈ e_systems (ent w e) →
          e ∈ s_entities (sys w s) ∧ e ∈ entities (ecs w) ∧ s ∈ systems (ecs w)) as Hc.
  { unfold ent at 1. destruct (ents w !! e) as [o|] eqn:He; simpl.
    - intros Hs. specialize (H1 e o He). simpl in H1.
      rewrite Forall_forall in H1. by apply H1.
    - by intros ?%elem_of_nil. }
  split; [split|];
    [intros Hin; by destruct (Hc Hin)| |intros Hin; by destruct (Hc Hin) as (_ & ? & ?)].
  unfold sys at 1. destruct (syss w !! s) as [p|] eqn:Hs; simpl.
  - intros Hin. specialize (H2 s p Hs). simpl in H2.
    rewrite Forall_forall in H2. by apply H2.
  - by intros ?%elem_of_nil.
Qed.

Lemma addEntity_removeEntity_witness :
  ecs (removeEntity 2 (addEntity 2 two_ids)).1.1 = ecs two_ids
  ∧ (∀ s, sys (removeEntity 2 (addEntity 2 two_ids)).1.1 s = sys two_ids s)
  ∧ (∀ x, x ≠ 2%nat → ent (removeEntity 2 (addEntity 2 two_ids)).1.1 x = ent two_ids x)
  ∧ ent (removeEntity 2 (addEntity 2 two_ids)).1.1 2 = set_owner (ent two_ids 2)
  ∧ (removeEntity 2 (addEntity 2 two_ids)).1.2 = [EvEntityDispose 2]
  ∧ (removeEntity 2 (addEntity 2 two_ids)).2 = VRef 2.
Proof.
  apply (addEntity_removeEntity 2 two_ids).
  - apply duplicate_free_b_sound. vm_compute. reflexivity.
  - apply coherent_b_sound. vm_compute. reflexivity.
  - decided.
Defined.

(** ** Membership is exact *)

Lemma System_test_data w w' s e :
  e_components (ent w' e) = e_components (ent w e) →
  s_required (sys w' s) = s_required (sys w s) →
  System_test s e w' = System_test s e w.
Proof. unfold System_test. by intros -> ->. Qed.

Lemma System_test_run_op w o s e :
  System_test s e (run_op w o) = System_test s e w.
Proof.
  apply System_test_data; destruct o as [x|x|s0|s0]; cbn [run_op].
  - rewrite (proj1 (addEntity_data x w) e). by case_decide; subst.
  - by rewrite (proj1 (removeEntity_data x w) e).
  - by rewrite (proj1 (addSystem_data s0 w) e).
  - destruct (removeSystem_view s0 w) as (_ & _ & _ & _ & _ & He & _). by rewrite He.
  - by rewrite (proj2 (addEntity_data x w) s).
  - by rewrite (proj2 (removeEntity_data x w) s).
  - by rewrite (proj2 (addSystem_data s0 w) s).
  - destruct (removeSystem_view s0 w) as (_ & _ & _ & _ & _ & _ & Hs). by rewrite Hs.
Qed.

(** What [removeEntity] leaves in the lists of a well-formed registry. *)
Lemma removeEntity_membership e w :
  duplicate_free w → coherent w → e ∈ entities (ecs w) →
  (∀ x, x ∈ entities (ecs (removeEntity e w).1.1) ↔ x ∈ entities (ecs w) ∧ x ≠ e)
  ∧ systems (ecs (removeEntity e w).1.1) = systems (ecs w)
  ∧ (∀ x s, x ∈ s_entities (sys (removeEntity e w).1.1 s)
            ↔ x ∈ s_entities (sys w s) ∧ x ≠ e).
Proof.
  intros [Hde Hds Hdc Hdt] Hco He.
  destruct (removeEntity_found e w He) as (index & Hlook & Hrun).
  destruct (fastSplice_spec _ _ _ Hlook) as (_ & _ & _ & Hperm).
  destruct (detach_spec e (e_systems (ent w e)) w Hdt) as (_ & _ & Hin).
  cbv zeta in Hin.
  rewrite Hrun. cbn [fst set_ecs ecs with_entities entities systems].
  change (sys (set_ecs ?r ?v)) with (sys v).
  rewrite ecs_Entity_dispose.
  set (l' := fastSplice (entities (ecs w)) index) in *.
  rewrite Hperm in Hde. apply NoDup_cons in Hde as [Hnot Hde].
  split_and!; [|done|].
  - intros x. rewrite Hperm, elem_of_cons. split.
    + intros Hx. split; [by right|]. by intros ->.
    + by intros [[->|?] ?].
  - intros x s. unfold Entity_dispose.
    change (sys (set_ent ?a ?o ?v) s) with (sys v s).
    rewrite Hin. split.
    + intros [Hx Hn]. split; [done|]. intros ->. apply Hn.
      split; [|done]. by apply (Hco e s).
    + intros [Hx Hne]. split; [done|]. by intros [_ ?].
Qed.

Lemma run_op_exact w o :
  duplicate_free w → coherent w → exact_membership w → allowed w o →
  exact_membership (run_op w o).
Proof.
  intros Hdf Hco Hex Hal e s.
  rewrite System_test_run_op.
  destruct o as [x|x|s0|s0]; cbn [run_op allowed] in *; [| | |done].
  - rewrite (proj2 (addEntity_membership x w e s)).
    destruct (addEntity_lists x w) as (HE & HS & _ & _). rewrite HE, HS.
    rewrite elem_of_app, list_elem_of_singleton, (Hex e s).
    split; [intros [?|(-> & ? & ?)]; tauto|].
    intros ([? | ->] & ? & ?); tauto.
  - destruct (decide (x ∈ entities (ecs w))) as [Hx|Hx].
    + destruct (removeEntity_membership x w Hdf Hco Hx) as (HE & HS & HT).
      rewrite HT, HE, HS, (Hex e s). tauto.
    + rewrite (proj2 (proj2 (removeEntity_absent_store x w Hx))). apply Hex.
  - rewrite (proj2 (addSystem_membership s0 w e s)).
    destruct (addSystem_lists s0 w) as (HS & HE & _ & _). rewrite HE, HS.
    rewrite elem_of_app, list_elem_of_singleton, (Hex e s).
    split; [intros [?|(-> & ? & ?)]; tauto|].
    intros (? & [? | ->] & ?); tauto.
Qed.

(** X18: as long as the client never adds what is already registered
    and never removes a system, every system tracks exactly the
    registered entities that pass its test: after any such sequence of
    [addEntity], [addSystem] and [removeEntity] on a new registry, an
    entity is in a system's tracked list if and only if both are
    registered and [system.test(entity)] holds. *)
Theorem membership_exact l w :
  duplicate_free w → coherent w → exact_membership w → allowed_ops w l →
  exact_membership (run_ops w l).
Proof.
  revert w. induction l as [|o l IH]; intros w Hdf Hco Hex Hal; [done|].
  destruct Hal as [Ho Hl]. unfold run_ops. cbn [foldl].
  destruct (run_ops_keeps [o] w Hdf Hco (conj Ho I)) as [Hdf' Hco'].
  apply IH; try done. by apply run_op_exact.
Qed.

Lemma exact_membership_new r :
  entities r = [] → exact_membership (new_World r).
Proof.
  intros Hr e s. unfold sys. simpl. rewrite lookup_empty, Hr. simpl.
  split; [by intros ?%elem_of_nil|]. by intros [?%elem_of_nil _].
Qed.

Lemma exact_membership_unattached w :
  entities (ecs w) = [] →
  map_Forall (λ _ p, s_entities p = []) (syss w) →
  exact_membership w.
Proof.
  intros HE Hs e s. rewrite HE.
  assert (s_entities (sys w s) = []) as ->.
  { unfold sys. destruct (syss w !! s) as [p|] eqn:Hp; simpl; [|done].
    by apply (Hs s p). }
  split; [by intros ?%elem_of_nil|]. by intros [?%elem_of_nil _].
Qed.

Lemma membership_exact_witness :
  exact_membership (run_ops mixed_store mixed_ops).
Proof.
  apply (membership_exact mixed_ops mixed_store).
  - apply duplicate_free_b_sound. vm_compute. reflexivity.
  - apply coherent_b_sound. vm_compute. reflexivity.
  - apply exact_membership_unattached; [reflexivity|decided].
  - cbn [allowed_ops allowed mixed_ops]. split_and!; try done; decided.
Defined.

(** After the operations of the witness the system for [pos] tracks
    the one entity left that has it, and the system for [pos] and [vel]
    tracks the same entity. *)
Example membership_exact_run :
  entities (ecs (run_ops mixed_store mixed_ops)) = [2%nat; 1%nat]
  ∧ s_entities (sys (run_ops mixed_store mixed_ops) 0) = [1%nat]
  ∧ s_entities (sys (run_ops mixed_store mixed_ops) 1) = [1%nat]
  ∧ e_systems (ent (run_ops mixed_store mixed_ops) 1) = [0%nat; 1%nat]
  ∧ e_systems (ent (run_ops mixed_store mixed_ops) 2) = [].
Proof. vm_compute. done. Qed.

(** ** A removed entity *)

(** X19: in a well-formed registry a removed entity is not updated any
    more: after [removeEntity(e)] an [update()] whose callbacks mutate
    nothing runs to its end without a call on [e], under either
    traversal. *)
Theorem removed_entity_not_updated upd fuel now e w :
  duplicate_free w → coherent w → quiet upd →
  (enough_fuel (removeEntity e w).1.1 ≤ fuel)%nat →
  ∃ w' tr,
    update upd fuel now (removeEntity e w).1.1 = Done w' tr
    ∧ ∀ s el, EvUpdate s e el ∉ tr.
Proof.
  intros Hdf Hco Hq Hf.
  destruct (removeEntity_keeps e w Hdf Hco) as (_ & Hco' & Hgone).
  assert ((e ∉ entities (ecs (removeEntity e w).1.1))
          ∧ ∀ s, e ∉ s_entities (sys (removeEntity e w).1.1 s)) as [HnE HnT].
  { destruct (decide (e ∈ entities (ecs w))) as [He|He]; [by apply Hgone|].
    rewrite (proj2 (proj2 (removeEntity_absent_store e w He))).
    split; [done|]. intros s Hs. apply He.
    apply (proj2 (Hco e s)). by apply (Hco e s). }
  destruct (update_quiet upd Hq fuel now _ Hf) as (wl & Hrun & _).
  eexists _, _. split; [exact Hrun|].
  intros s el. unfold dispatch.
  destruct (truthy (systemsFirst (ecs (removeEntity e w).1.1))).
  - intros (_ & Hin & _)%elem_of_dispatch_systems. by apply (HnT s).
  - intros (Hin & _)%elem_of_dispatch_entities. done.
Qed.

Lemma removed_entity_not_updated_witness :
  ∃ w' tr,
    update idle 10 5 (removeEntity 0 two_systems).1.1 = Done w' tr
    ∧ ∀ s el, EvUpdate s 0 el ∉ tr.
Proof.
  apply (removed_entity_not_updated idle 10 5 0 two_systems).
  - apply duplicate_free_b_sound. vm_compute. reflexivity.
  - apply coherent_b_sound. vm_compute. reflexivity.
  - apply quiet_idle.
  - vm_compute. lia.
Defined.

(** The entity left in the registry of the witness is still updated by
    both systems. *)
Example removed_entity_run :
  trace_of (update idle 10 5 two_systems)
  = [EvUpdate 0 0 5; EvUpdate 0 1 5; EvUpdate 1 0 5; EvUpdate 1 1 5]
  ∧ trace_of (update idle 10 5 (removeEntity 0 two_systems).1.1)
    = [EvUpdate 0 1 5; EvUpdate 1 1 5].
Proof. vm_compute. done. Qed.

(** ** Ticks whose callbacks mutate the registry *)

Section Bounded.

Variable upd : SysRef -> EntRef -> Z -> World -> World.
Variable B : nat.
Hypothesis Hupd : ∀ s e elapsed w, bounded B w → bounded B (upd s e elapsed w).

Lemma updateEntities_inner_ends fuel entity elapsed :
  ∀ j w tr,
    bounded B w → (B - j < fuel)%nat →
    ∃ w' tr',
      updateEntities_inner upd fuel entity elapsed j w tr = Done w' tr'
      ∧ bounded B w'.
Proof.
  induction fuel as [|fuel IH]; intros j w tr Hb Hf; [lia|].
  simpl. destruct (e_systems (ent w entity) !! j) as [system|] eqn:Hj; [|eauto].
  pose proof (lookup_lt_Some _ _ _ Hj) as Hlt.
  pose proof (proj1 (proj2 (proj2 Hb)) entity) as H3.
  destruct (skipped w system).
  - apply IH; [done|lia].
  - apply IH; [by apply Hupd|lia].
Qed.

Lemma updateSystems_inner_ends fuel system elapsed :
  ∀ j w tr,
    bounded B w → (B - j < fuel)%nat →
    ∃ w' tr',
      updateSystems_inner upd fuel system elapsed j w tr = Done w' tr'
      ∧ bounded B w'.
Proof.
  induction fuel as [|fuel IH]; intros j w tr Hb Hf; [lia|].
  simpl. destruct (s_entities (sys w system) !! j) as [entity|] eqn:Hj; [|eauto].
  pose proof (lookup_lt_Some _ _ _ Hj) as Hlt.
  pose proof (proj2 (proj2 (proj2 Hb)) system) as H4.
  destruct (skipped w system).
  - apply IH; [done|lia].
  - apply IH; [by apply Hupd|lia].
Qed.

Lemma updateEntities_outer_ends fuel elapsed :
  ∀ i w tr,
    bounded B w → (B - i + B + 1 < fuel)%nat →
    ∃ w' tr',
      updateEntities_outer upd fuel elapsed i w tr = Done w' tr'
      ∧ bounded B w'.
Proof.
  induction fuel as [|fuel IH]; intros i w tr Hb Hf; [lia|].
  simpl. destruct (entities (ecs w) !! i) as [entity|] eqn:Hi; [|eauto].
  pose proof (lookup_lt_Some _ _ _ Hi) as Hlt.
  pose proof Hb as (H1 & _).
  destruct (updateEntities_inner_ends fuel entity elapsed 0 w tr Hb)
    as (w1 & tr1 & -> & Hb1); [lia|].
  apply IH; [done|lia].
Qed.

Lemma updateSystems_outer_ends fuel elapsed :
  ∀ i w tr,
    bounded B w → (B - i + B + 1 < fuel)%nat →
    ∃ w' tr',
      updateSystems_outer upd fuel elapsed i w tr = Done w' tr'
      ∧ bounded B w'.
Proof.
  induction fuel as [|fuel IH]; intros i w tr Hb Hf; [lia|].
  simpl. destruct (systems (ecs w) !! i) as [system|] eqn:Hi; [|eauto].
  pose proof (lookup_lt_Some _ _ _ Hi) as Hlt.
  pose proof Hb as (_ & H2 & _).
  destruct (updateSystems_inner_ends fuel system elapsed 0 w tr Hb)
    as (w1 & tr1 & -> & Hb1); [lia|].
  apply IH; [done|lia].
Qed.

End Bounded.

(** X20: [update()] comes to an end although its callbacks mutate the
    lists it walks, as long as they never make a list longer than some
    bound [B]: both traversals re-read the length at every step and
    only move forward, so the tick runs to its end (with fuel
    [2 * B + 3]), raises the counter of the store the callbacks left by
    one and stores the clock reading. *)
Theorem update_ends upd B fuel now w :
  (∀ s e elapsed w0, bounded B w0 → bounded B (upd s e elapsed w0)) →
  bounded B w → (2 * B + 3 ≤ fuel)%nat →
  ∃ wl tr,
    traversal upd fuel (now - lastUpdate (ecs w)) w = Done wl tr
    ∧ bounded B wl
    ∧ update upd fuel now w = Done (set_ecs (tick now (ecs wl)) wl) tr
    ∧ updateCounter (ecs (set_ecs (tick now (ecs wl)) wl)) = updateCounter (ecs wl) + 1
    ∧ lastUpdate (ecs (set_ecs (tick now (ecs wl)) wl)) = now.
Proof.
  intros Hupd Hb Hf. rewrite update_traversal. unfold traversal.
  destruct (truthy (systemsFirst (ecs w))).
  - destruct (updateSystems_outer_ends upd B Hupd fuel (now - lastUpdate (ecs w))
                0 w [] Hb) as (wl & tr & -> & Hbl); [lia|].
    by exists wl, tr.
  - destruct (updateEntities_outer_ends upd B Hupd fuel (now - lastUpdate (ecs w))
                0 w [] Hb) as (wl & tr & -> & Hbl); [lia|].
    by exists wl, tr.
Qed.

Lemma length_without x l : (length (without x l) ≤ length l)%nat.
Proof. apply without_spec. Qed.

Lemma length_detach e l :
  ∀ w s, (length (s_entities (sys (foldl (fun acc s0 => System_removeEntity s0 e acc) w l) s))
          ≤ length (s_entities (sys w s)))%nat.
Proof.
  induction l as [|a l IH]; intros w s; cbn [foldl]; [done|].
  etrans; [apply IH|]. rewrite tracked_System_removeEntity.
  case_decide; [apply length_without|done].
Qed.

(** Removing entities never makes a list longer. *)
Lemma bounded_remove_self B : ∀ s e elapsed w, bounded B w → bounded B (remove_self s e elapsed w).
Proof.
  intros s0 e elapsed w (H1 & H2 & H3 & H4). unfold remove_self.
  pose proof (ecs_removeEntity e w) as Hecs.
  unfold removeEntity in *.
  destruct (indexOf e (entities (ecs w))) as [index|] eqn:Hi; [|by split_and!].
  cbn [fst] in *. unfold bounded. rewrite Hecs.
  cbn [entities systems with_entities].
  change (ent (set_ecs ?r ?v)) with (ent v).
  change (sys (set_ecs ?r ?v)) with (sys v).
  split_and!.
  - pose proof (length_without e (entities (ecs w))) as Hl.
    unfold without in Hl. rewrite Hi in Hl. unfold EntRef in *. lia.
  - done.
  - intros x. unfold Entity_dispose. rewrite ent_set_ent.
    case_decide; [simpl; lia|].
    rewrite (ent_ents _ w x); [done|].
    clear. generalize (e_systems (ent w e)). intros l. revert w.
    induction l as [|a l IH]; intros w; cbn [foldl]; [done|].
    by rewrite IH, ents_System_removeEntity.
  - intros s. unfold Entity_dispose.
    change (sys (set_ent ?a ?o ?v) s) with (sys v s).
    etrans; [apply length_detach|done].
Qed.

Lemma update_ends_witness :
  ∃ wl tr,
    traversal remove_self 10 (5 - lastUpdate (ecs two_systems)) two_systems = Done wl tr
    ∧ bounded 2 wl
    ∧ update remove_self 10 5 two_systems = Done (set_ecs (tick 5 (ecs wl)) wl) tr
    ∧ updateCounter (ecs (set_ecs (tick 5 (ecs wl)) wl)) = updateCounter (ecs wl) + 1
    ∧ lastUpdate (ecs (set_ecs (tick 5 (ecs wl)) wl)) = 5.
Proof.
  apply (update_ends remove_self 2 10 5 two_systems).
  - apply bounded_remove_self.
  - unfold bounded. split_and!.
    + vm_compute. lia.
    + vm_compute. lia.
    + intros e. unfold ent.
      destruct (ents two_systems !! e) as [o|] eqn:He; simpl; [|lia].
      assert (map_Forall (λ _ o, (length (e_systems o) ≤ 2)%nat) (ents two_systems)) as H
        by decided.
      by apply (H e o).
    + intros s. unfold sys.
      destruct (syss two_systems !! s) as [p|] eqn:Hs; simpl; [|lia].
      assert (map_Forall (λ _ p, (length (s_entities p) ≤ 2)%nat) (syss two_systems)) as H
        by decided.
      by apply (H s p).
  - lia.
Defined.

(** The hazard of mutating during the traversal, on the witness: the
    first callback removes entity 0, the last entity takes its place in
    the tracked list, and the traversal, which only moves forward, does
    not visit it in this tick. *)
Example remove_self_run :
  s_entities (sys two_systems 0) = [0%nat; 1%nat]
  ∧ trace_of (update remove_self 10 5 two_systems) = [EvUpdate 0 0 5; EvUpdate 1 1 5]
  ∧ entities (ecs (world_of (update remove_self 10 5 two_systems))) = [].
Proof. vm_compute. done. Qed.
